(** * An authenticated image store: the request handlers of [backend/server.py]

    A shallow embedding of the FastAPI handlers (register, login, upload,
    list, delete), of the image normalisation routine [process_image] and
    of the token routine [create_access_token], followed by the properties
    of the upload pipeline and of the owner-scoped store that the design
    document states.

    Collaborators that live outside the repository are kept at their
    interface: the document store is a pair of lists of documents in
    insertion order, the image library (PIL) is a record of fallible
    operations, and the JWT / password primitives are parameters. *)

From Stdlib Require Import ZArith Lia Ascii.
From stdpp Require Import base decidable option list sorting strings pretty gmap.

Local Open Scope string_scope.
Local Open Scope list_scope.
Local Open Scope Z_scope.

(** ** Time

    [datetime] is a naive UTC instant and [timedelta] a duration, both
    counted in microseconds (the resolution of Python's [datetime]); the
    range limits of the two Python types are not modelled. *)

Definition datetime := Z.
Definition timedelta := Z.

Definition timedelta_minutes (minutes : Z) : timedelta := minutes * 60 * 1000000.

(** The store keeps a datetime as a BSON date, counted in milliseconds:
    the microseconds below the millisecond are dropped. *)
Definition bson_datetime (t : datetime) : datetime := 1000 * (t / 1000).

(** [bool(td)]: a [timedelta] is falsy exactly when it is [timedelta(0)]. *)
Definition timedelta_truthy (td : timedelta) : bool := negb (td =? 0).

(** ** Documents

    Field values of the documents kept in the store and of the query
    dictionaries matched against them. *)

Inductive value :=
  | VStr (s : string)
  | VBool (b : bool)
  | VInt (n : Z)
  | VDate (t : datetime).

Global Instance value_eq_dec : EqDecision value.
Proof. solve_decision. Defined.

(** A pydantic model that can be turned into a document by [.dict()]. *)
Class BaseModel (A : Type) := dict : A → gmap string value.

Module User.
Record t := mk {
  id : string;
  username : string;
  email : string;
  hashed_password : string;
  created_at : datetime
}.
End User.

Global Instance User_model : BaseModel User.t := λ u,
  {[ "id" := VStr (User.id u);
     "username" := VStr (User.username u);
     "email" := VStr (User.email u);
     "hashed_password" := VStr (User.hashed_password u);
     "created_at" := VDate (User.created_at u) ]}.

Module UserCreate.
Record t := mk { username : string; email : string; password : string }.
End UserCreate.

Module UserLogin.
Record t := mk { username : string; password : string }.
End UserLogin.

Module UserResponse.
Record t := mk {
  id : string;
  username : string;
  email : string;
  created_at : datetime
}.
End UserResponse.

Module ImageItem.
Record t := mk {
  id : string;
  user_id : string;
  filename : string;
  caption : string;
  is_private : bool;
  image_data : string;
  content_type : string;
  file_size : Z;
  created_at : datetime
}.
End ImageItem.

Global Instance ImageItem_model : BaseModel ImageItem.t := λ d,
  {[ "id" := VStr (ImageItem.id d);
     "user_id" := VStr (ImageItem.user_id d);
     "filename" := VStr (ImageItem.filename d);
     "caption" := VStr (ImageItem.caption d);
     "is_private" := VBool (ImageItem.is_private d);
     "image_data" := VStr (ImageItem.image_data d);
     "content_type" := VStr (ImageItem.content_type d);
     "file_size" := VInt (ImageItem.file_size d);
     "created_at" := VDate (ImageItem.created_at d) ]}.

(** The document as the store keeps it: every datetime field cut to the
    millisecond. *)
Class BSON (A : Type) := bson : A → A.

Global Instance User_bson : BSON User.t := λ u,
  User.mk (User.id u) (User.username u) (User.email u) (User.hashed_password u)
    (bson_datetime (User.created_at u)).

Global Instance ImageItem_bson : BSON ImageItem.t := λ d,
  ImageItem.mk (ImageItem.id d) (ImageItem.user_id d) (ImageItem.filename d)
    (ImageItem.caption d) (ImageItem.is_private d) (ImageItem.image_data d)
    (ImageItem.content_type d) (ImageItem.file_size d)
    (bson_datetime (ImageItem.created_at d)).

Module ImageResponse.
Record t := mk {
  id : string;
  filename : string;
  caption : string;
  is_private : bool;
  image_data : string;
  content_type : string;
  file_size : Z;
  created_at : datetime
}.

(** The response model built from a stored document (its fields passed
  as keyword arguments): the public view; the owner id is not part
  of it. *)
Definition of_item (d : ImageItem.t) : t :=
  {| id := ImageItem.id d;
     filename := ImageItem.filename d;
     caption := ImageItem.caption d;
     is_private := ImageItem.is_private d;
     image_data := ImageItem.image_data d;
     content_type := ImageItem.content_type d;
     file_size := ImageItem.file_size d;
     created_at := ImageItem.created_at d |}.
End ImageResponse.

(** ** The document store

    Two collections, each a list of documents in insertion order. *)

Record Database := {
  users : list User.t;
  images : list ImageItem.t
}.

(** Query documents: a dictionary of field equalities, or an [$or] of such
  dictionaries (the only two shapes the handlers build). *)
Inductive query :=
  | Q (fields : gmap string value)
  | QOr (alternatives : list (gmap string value)).

Definition fields_match `{BaseModel A} (fields : gmap string value) (d : A) : Prop :=
  map_Forall (λ k v, dict d !! k = Some v) fields.

Definition matches `{BaseModel A} (q : query) (d : A) : Prop :=
  match q with
  | Q fields => fields_match fields d
  | QOr alternatives => Exists (λ fields, fields_match fields d) alternatives
  end.

Global Instance fields_match_dec `{BaseModel A} fields (d : A) :
  Decision (fields_match fields d).
Proof. unfold fields_match. apply _. Defined.

Global Instance matches_dec `{BaseModel A} q (d : A) : Decision (matches q d).
Proof. destruct q; simpl; apply _. Defined.

Module Collection.
Section ops.
Context `{BaseModel A} `{BSON A}.

(** [collection.find(q)] : the matching documents, in natural order. *)
Definition find (q : query) (coll : list A) : list A :=
  filter (matches q) coll.

(** [collection.find_one(q)] : the first matching document, if any. *)
Definition find_one (q : query) (coll : list A) : option A :=
  head (find q coll).

(** [collection.insert_one(doc)] : the document is appended as the store
    keeps it. *)
Definition insert_one (doc : A) (coll : list A) : list A :=
  coll ++ [bson doc].

(** [collection.delete_one(q)] : removes the first matching document;
  returns the remaining collection and [deleted_count]. *)
Fixpoint delete_one (q : query) (coll : list A) : list A * Z :=
  match coll with
  | [] => ([], 0)
  | d :: rest =>
      if decide (matches q d) then (rest, 1)
      else let '(rest', n) := delete_one q rest in (d :: rest', n)
  end.

(** [cursor.to_list(n)] : at most the first [n] documents. *)
Definition to_list (n : nat) (cursor : list A) : list A := take n cursor.
End ops.
End Collection.

(** [cursor.sort("created_at", -1)] on the images collection. *)
Definition created_desc (a b : ImageItem.t) : Prop :=
  ImageItem.created_at b ≤ ImageItem.created_at a.

Global Instance created_desc_dec a b : Decision (created_desc a b).
Proof. unfold created_desc. apply _. Defined.

Definition sort_created_at_desc (cursor : list ImageItem.t) : list ImageItem.t :=
  merge_sort created_desc cursor.

(** ** Exceptions, results and the handler monad *)

(** What Python code can raise here: an exception thrown inside a library
  call ([msg] is what [str(e)] gives), or FastAPI's [HTTPException]
  (its optional headers are left out).  Both are subclasses of
  [Exception], so an [except Exception] clause catches either. *)
Inductive exn :=
  | Exception (msg : string)
  | HTTPException (status_code : Z) (detail : string).

Definition exn_str (e : exn) : string :=
  match e with
  | Exception msg => msg
  | HTTPException status_code detail => pretty status_code +:+ ": " +:+ detail
  end.

Inductive result (A : Type) :=
  | Return (a : A)
  | Raise (e : exn).
Arguments Return {A} a.
Arguments Raise {A} e.

(** The image library, at its interface.  An image carries its colour
  mode, its size [(width, height)] and its pixel data. *)
Module PIL.
Inductive Resampling := NEAREST | BOX | BILINEAR | HAMMING | BICUBIC | LANCZOS.

Record Image := {
  mode : string;
  size : Z * Z;
  raster : list Byte.byte
}.

(** [Image.open], [Image.convert], [Image.thumbnail] (which returns the
  image it resized in place) and [Image.save] into a buffer. *)
Record library := {
  open : list Byte.byte → result Image;
  convert : Image → string → result Image;
  thumbnail : Image → Z * Z → Resampling → result Image;
  save : Image → string → Z → result (list Byte.byte)
}.
End PIL.

(** Calls that leave the handler: reading the upload body and the calls
  into the image library, each with its arguments. *)
Inductive event :=
  | EvRead (filename : string)
  | EvOpen (data : list Byte.byte)
  | EvConvert (image : PIL.Image) (mode : string)
  | EvThumbnail (image : PIL.Image) (box : Z * Z) (resample : PIL.Resampling)
  | EvSave (image : PIL.Image) (format : string) (quality : Z).

(** The state a request runs against: the store, and the calls made so
  far (oldest first). *)
Record World := {
  db : Database;
  calls : list event
}.

Definition Handler (A : Type) : Type := World → result A * World.

Global Instance Handler_ret : MRet Handler := λ A a w, (Return a, w).

Global Instance Handler_bind : MBind Handler := λ A B k m w,
  match m w with
  | (Return a, w') => k a w'
  | (Raise e, w') => (Raise e, w')
  end.

Definition raise {A} (e : exn) : Handler A := λ w, (Raise e, w).

(** [try: body / except Exception as e: handler e].  State changes made
  by the body before it raised are kept. *)
Definition try_except {A} (body : Handler A) (handler : exn → Handler A) : Handler A :=
  λ w, match body w with
       | (Return a, w') => (Return a, w')
       | (Raise e, w') => handler e w'
       end.

Definition lift {A} (r : result A) : Handler A := λ w, (r, w).

Definition log (ev : event) : Handler unit :=
  λ w, (Return tt, {| db := db w; calls := calls w ++ [ev] |}).

(** The store operations the handlers use. *)
Definition users_find_one (q : query) : Handler (option User.t) :=
  λ w, (Return (Collection.find_one q (users (db w))), w).

Definition users_insert_one (doc : User.t) : Handler unit :=
  λ w, (Return tt,
        {| db := {| users := Collection.insert_one doc (users (db w));
                    images := images (db w) |};
           calls := calls w |}).

Definition images_find (q : query) : Handler (list ImageItem.t) :=
  λ w, (Return (Collection.find q (images (db w))), w).

Definition images_insert_one (doc : ImageItem.t) : Handler unit :=
  λ w, (Return tt,
        {| db := {| users := users (db w);
                    images := Collection.insert_one doc (images (db w)) |};
           calls := calls w |}).

Definition images_delete_one (q : query) : Handler Z :=
  λ w, let '(remaining, deleted_count) := Collection.delete_one q (images (db w)) in
       (Return deleted_count,
        {| db := {| users := users (db w); images := remaining |};
           calls := calls w |}).

(** ** Security configuration and tokens *)

Definition SECRET_KEY : string := "your-secret-key-here-change-in-production".
Definition ALGORITHM : string := "HS256".
Definition ACCESS_TOKEN_EXPIRE_MINUTES : Z := 30.

Module Token.
Record t := mk {
  access_token : string;
  token_type : string;
  user : UserResponse.t
}.
End Token.

(** [if expires_delta:] on an [Optional[timedelta]]: [None] is falsy, and
  so is a zero duration. *)
Definition expires_delta_truthy (expires_delta : option timedelta) : bool :=
  match expires_delta with
  | Some td => timedelta_truthy td
  | None => false
  end.

(** The claims dictionary [to_encode] that [create_access_token] signs;
  [utcnow] is the clock reading taken inside the routine. *)
Definition to_encode (data : gmap string value) (expires_delta : option timedelta)
    (utcnow : datetime) : gmap string value :=
  let expire :=
    if expires_delta_truthy expires_delta
    then utcnow + default 0 expires_delta
    else utcnow + timedelta_minutes 15 in
  <["exp" := VDate expire]> data.

Section auth.
(** The signing primitive [jwt.encode] and the password-hash context,
    whose [hash] and [verify] raise on input they refuse. *)
Variable jwt_encode : gmap string value → string → string → string.
Variable get_password_hash : string → result string.
Variable verify_password : string → string → result bool.

Definition create_access_token (data : gmap string value)
    (expires_delta : option timedelta) (utcnow : datetime) : string :=
  jwt_encode (to_encode data expires_delta utcnow) SECRET_KEY ALGORITHM.

(** [uuid4] and [created_at] are the values the [User] default factories
  produce; [utcnow] is the clock reading inside [create_access_token]. *)
Definition register (user_data : UserCreate.t) (uuid4 : string)
    (created_at utcnow : datetime) : Handler Token.t :=
  existing_user ← users_find_one
    (QOr [ {[ "username" := VStr (UserCreate.username user_data) ]};
           {[ "email" := VStr (UserCreate.email user_data) ]} ]);
  if existing_user is Some _ then
    raise (HTTPException 400 "Username or email already registered")
  else
    hashed_password ← lift (get_password_hash (UserCreate.password user_data));
    let user := User.mk uuid4 (UserCreate.username user_data)
                  (UserCreate.email user_data) hashed_password created_at in
    users_insert_one user;;
    let access_token_expires := timedelta_minutes ACCESS_TOKEN_EXPIRE_MINUTES in
    let access_token :=
      create_access_token {[ "sub" := VStr (User.username user) ]}
        (Some access_token_expires) utcnow in
    let user_response :=
      UserResponse.mk (User.id user) (User.username user) (User.email user)
        (User.created_at user) in
    mret (Token.mk access_token "bearer" user_response).

Definition login (user_data : UserLogin.t) (utcnow : datetime) : Handler Token.t :=
  found ← users_find_one (Q {[ "username" := VStr (UserLogin.username user_data) ]});
  match found with
  | Some user =>
      verified ← lift (verify_password (UserLogin.password user_data)
                         (User.hashed_password user));
      if (verified : bool)
      then
        let access_token_expires := timedelta_minutes ACCESS_TOKEN_EXPIRE_MINUTES in
        let access_token :=
          create_access_token {[ "sub" := VStr (User.username user) ]}
            (Some access_token_expires) utcnow in
        let user_response :=
          UserResponse.mk (User.id user) (User.username user) (User.email user)
            (User.created_at user) in
        mret (Token.mk access_token "bearer" user_response)
      else raise (HTTPException 401 "Incorrect username or password")
  | None => raise (HTTPException 401 "Incorrect username or password")
  end.
End auth.

(** ** The image pipeline and the image handlers *)

Module UploadFile.
Record t := mk {
  filename : string;
  content_type : string;
  body : list Byte.byte
}.
End UploadFile.

Definition allowed_types : list string :=
  ["image/jpeg"; "image/jpg"; "image/png"; "image/gif"; "image/webp"].

Definition format_map : gmap string string :=
  {[ "image/jpeg" := "JPEG";
     "image/jpg" := "JPEG";
     "image/png" := "PNG";
     "image/gif" := "GIF";
     "image/webp" := "WEBP" ]}.

Definition max_size : Z * Z := (1920, 1080).

(** [len(data)] *)
Definition len (data : list Byte.byte) : Z := Z.of_nat (length data).

(** [base64.b64encode(data).decode()]: the standard alphabet, three bytes
  to four characters, [=] padding, no line breaks. *)
Definition b64_alphabet : string :=
  "ABCDEFGHIJKLMNOPQRSTUVWXYZabcdefghijklmnopqrstuvwxyz0123456789+/".

Definition b64_char (i : N) : Ascii.ascii :=
  default "="%char (String.get (N.to_nat i) b64_alphabet).

Definition b64_pad : Ascii.ascii := "="%char.

Fixpoint b64encode (data : list Byte.byte) : string :=
  match data with
  | [] => ""
  | [b0] =>
      let n := (Byte.to_N b0 * 65536)%N in
      String (b64_char (n / 262144)) (String (b64_char (n / 4096 mod 64))
        (String b64_pad (String b64_pad "")))
  | [b0; b1] =>
      let n := (Byte.to_N b0 * 65536 + Byte.to_N b1 * 256)%N in
      String (b64_char (n / 262144)) (String (b64_char (n / 4096 mod 64))
        (String (b64_char (n / 64 mod 64)) (String b64_pad "")))
  | b0 :: b1 :: b2 :: rest =>
      let n := (Byte.to_N b0 * 65536 + Byte.to_N b1 * 256 + Byte.to_N b2)%N in
      String (b64_char (n / 262144)) (String (b64_char (n / 4096 mod 64))
        (String (b64_char (n / 64 mod 64)) (String (b64_char (n mod 64))
          (b64encode rest))))
  end.

Section images.
Variable pil : PIL.library.

Definition Image_open (data : list Byte.byte) : Handler PIL.Image :=
  log (EvOpen data);; lift (PIL.open pil data).

Definition Image_convert (image : PIL.Image) (mode : string) : Handler PIL.Image :=
  log (EvConvert image mode);; lift (PIL.convert pil image mode).

Definition Image_thumbnail (image : PIL.Image) (box : Z * Z)
    (resample : PIL.Resampling) : Handler PIL.Image :=
  log (EvThumbnail image box resample);; lift (PIL.thumbnail pil image box resample).

Definition Image_save (image : PIL.Image) (format : string) (quality : Z) :
    Handler (list Byte.byte) :=
  log (EvSave image format quality);; lift (PIL.save pil image format quality).

(** The body of the [try] block of [process_image]. *)
Definition process_image_body (file_data : list Byte.byte) (content_type : string) :
    Handler (string * Z) :=
  image ← Image_open file_data;
  image ← (if bool_decide (PIL.mode image ∈ ["RGBA"; "P"])
           then Image_convert image "RGB"
           else mret image);
  image ← (if ((PIL.size image).1 >? max_size.1) || ((PIL.size image).2 >? max_size.2)
           then Image_thumbnail image max_size PIL.LANCZOS
           else mret image);
  let format_name := default "JPEG" (format_map !! content_type) in
  processed_data ← Image_save image format_name 85;
  let base64_string := b64encode processed_data in
  mret (base64_string, len processed_data).

Definition process_image (file_data : list Byte.byte) (content_type : string) :
    Handler (string * Z) :=
  try_except (process_image_body file_data content_type)
    (λ e, raise (HTTPException 400 ("Invalid image file: " +:+ exn_str e))).

Definition file_read (file : UploadFile.t) : Handler (list Byte.byte) :=
  log (EvRead (UploadFile.filename file));; mret (UploadFile.body file).

(** [uuid4] and [utcnow] are the values the [ImageItem] default factories
  produce for the new record. *)
Definition upload_image (file : UploadFile.t) (caption : string) (is_private : bool)
    (current_user : User.t) (uuid4 : string) (utcnow : datetime) :
    Handler ImageResponse.t :=
  if negb (bool_decide (UploadFile.content_type file ∈ allowed_types)) then
    raise (HTTPException 400
             "Invalid file type. Only JPEG, PNG, GIF, and WebP are allowed.")
  else
    file_data ← file_read file;
    if len file_data >? 10 * 1024 * 1024 then
      raise (HTTPException 400 "File too large. Maximum size is 10MB.")
    else
      '(base64_data, processed_size) ←
        process_image file_data (UploadFile.content_type file);
      let image_item :=
        ImageItem.mk uuid4 (User.id current_user) (UploadFile.filename file)
          caption is_private base64_data (UploadFile.content_type file)
          processed_size utcnow in
      images_insert_one image_item;;
      mret (ImageResponse.of_item image_item).
End images.

Definition get_images (private : option bool) (current_user : User.t) :
    Handler (list ImageResponse.t) :=
  let query : gmap string value := {[ "user_id" := VStr (User.id current_user) ]} in
  let query :=
    match private with
    | Some p => <["is_private" := VBool p]> query
    | None => query
    end in
  found ← images_find (Q query);
  let images := Collection.to_list 100 (sort_created_at_desc found) in
  mret (ImageResponse.of_item <$> images).

Definition delete_image (image_id : string) (current_user : User.t) :
    Handler (gmap string string) :=
  deleted_count ← images_delete_one
    (Q {[ "id" := VStr image_id; "user_id" := VStr (User.id current_user) ]});
  if deleted_count =? 0 then raise (HTTPException 404 "Image not found")
  else mret {[ "message" := "Image deleted successfully" ]}.

(** ** The access-control gate *)

Module HTTPAuthorizationCredentials.
Record t := mk { scheme : string; credentials : string }.
End HTTPAuthorizationCredentials.

(** What [jwt.decode] gives: the claims of the token, or a
    [jwt.PyJWTError] (bad signature, expired token, malformed token).  A
    claim whose JSON value is null is taken as absent, which is how
    [payload.get] reads it. *)
Inductive jwt_decoded :=
  | Decoded (payload : gmap string value)
  | PyJWTError (msg : string).

Definition credentials_exception : exn :=
  HTTPException 401 "Could not validate credentials".

Section gate.
(** The verification primitive [jwt.decode(token, key, algorithms)]. *)
Variable jwt_decode : string → string → list string → jwt_decoded.

Definition get_current_user (credentials : HTTPAuthorizationCredentials.t) :
    Handler User.t :=
  let token := HTTPAuthorizationCredentials.credentials credentials in
  match jwt_decode token SECRET_KEY [ALGORITHM] with
  | Decoded payload =>
      match payload !! "sub" with
      | Some username =>
          found ← users_find_one (Q {[ "username" := username ]});
          match found with
          | Some user => mret user
          | None => raise credentials_exception
          end
      | None => raise credentials_exception
      end
  | PyJWTError _ => raise credentials_exception
  end.

(** A parameter [current_user: User = Depends(get_current_user)]: the
    framework runs the gate first and calls the endpoint with the user it
    returned. *)
Definition Depends_get_current_user {A} (credentials : HTTPAuthorizationCredentials.t)
    (endpoint : User.t → Handler A) : Handler A :=
  current_user ← get_current_user credentials;
  endpoint current_user.

(** The three protected routes, as the framework serves them. *)
Definition POST_images_upload (pil : PIL.library)
    (credentials : HTTPAuthorizationCredentials.t) (file : UploadFile.t)
    (caption : string) (is_private : bool) (uuid4 : string) (utcnow : datetime) :
    Handler ImageResponse.t :=
  Depends_get_current_user credentials
    (λ current_user, upload_image pil file caption is_private current_user uuid4 utcnow).

Definition GET_images (credentials : HTTPAuthorizationCredentials.t)
    (private : option bool) : Handler (list ImageResponse.t) :=
  Depends_get_current_user credentials (get_images private).

Definition DELETE_images (credentials : HTTPAuthorizationCredentials.t)
    (image_id : string) : Handler (gmap string string) :=
  Depends_get_current_user credentials (delete_image image_id).
End gate.

(** ** The image library's colour modes and resize contract *)

(** Pillow's mode table: the modes that carry an alpha band, and the
  palette-based ones. *)
Definition mode_has_alpha (mode : string) : bool :=
  bool_decide (mode ∈ ["RGBA"; "LA"; "PA"; "RGBa"; "La"]).

Definition mode_is_palette (mode : string) : bool :=
  bool_decide (mode ∈ ["P"; "PA"]).

(** Either dimension of [size] is beyond the bound [box]. *)
Definition exceeds (size box : Z * Z) : Prop :=
  box.1 < size.1 ∨ box.2 < size.2.

Definition fits (size box : Z * Z) : Prop :=
  size.1 ≤ box.1 ∧ size.2 ≤ box.2.

(** [new] has the aspect ratio of [old] up to the rounding of one side to
  a whole pixel: [new.1 / new.2] and [old.1 / old.2] differ by less than
  one pixel on the longer side of [old] after cross-multiplication. *)
Definition aspect_preserved (old new : Z * Z) : Prop :=
  Z.abs (new.1 * old.2 - new.2 * old.1) < Z.max old.1 old.2.

(** What the handlers rely on from the library: [convert] yields the
  requested mode at the same size; [thumbnail] keeps the mode and
  returns an image inside the requested box with the aspect ratio of a
  (non-empty) input. *)
Record PIL_contract (pil : PIL.library) : Prop := {
  convert_ok : ∀ im mode im',
    PIL.convert pil im mode = Return im' →
    PIL.mode im' = mode ∧ PIL.size im' = PIL.size im;
  thumbnail_ok : ∀ im box resample im',
    PIL.thumbnail pil im box resample = Return im' →
    PIL.mode im' = PIL.mode im ∧
    (0 < box.1 → 0 < box.2 → fits (PIL.size im') box) ∧
    (0 < (PIL.size im).1 → 0 < (PIL.size im).2 → 0 < box.1 → 0 < box.2 →
     exceeds (PIL.size im) box →
     aspect_preserved (PIL.size im) (PIL.size im'))
}.

(** ** A reference codec

    A small stand-in for the image library, used to run the handlers on
    concrete uploads.  Its file format is a five-byte header (a mode tag,
    then width and height as two big-endian bytes each) followed by the
    pixel data.  Its [thumbnail] computes the new size the way Pillow's
    [Image.thumbnail] does, in exact arithmetic. *)
Module Stub.
Definition mode_of_tag (tag : Byte.byte) : option string :=
  match tag with
  | Byte.x00 => Some "RGB"
  | Byte.x01 => Some "RGBA"
  | Byte.x02 => Some "P"
  | Byte.x03 => Some "L"
  | Byte.x04 => Some "LA"
  | _ => None
  end.

Definition tag_of_mode (mode : string) : Byte.byte :=
  if decide (mode = "RGB") then Byte.x00
  else if decide (mode = "RGBA") then Byte.x01
  else if decide (mode = "P") then Byte.x02
  else if decide (mode = "L") then Byte.x03
  else if decide (mode = "LA") then Byte.x04
  else Byte.xff.

Definition byte_Z (b : Byte.byte) : Z := Z.of_N (Byte.to_N b).

Definition Z_byte (n : Z) : Byte.byte :=
  default Byte.x00 (Byte.of_N (Z.to_N (n mod 256))).

Definition open (data : list Byte.byte) : result PIL.Image :=
  match data with
  | tag :: wh :: wl :: hh :: hl :: raster =>
      let width := 256 * byte_Z wh + byte_Z wl in
      let height := 256 * byte_Z hh + byte_Z hl in
      match mode_of_tag tag with
      | Some mode =>
          if (width =? 0) || (height =? 0)
          then Raise (Exception "cannot identify image file")
          else Return {| PIL.mode := mode; PIL.size := (width, height);
                         PIL.raster := raster |}
      | None => Raise (Exception "cannot identify image file")
      end
  | _ => Raise (Exception "cannot identify image file")
  end.

Definition convert (im : PIL.Image) (mode : string) : result PIL.Image :=
  Return {| PIL.mode := mode; PIL.size := PIL.size im; PIL.raster := PIL.raster im |}.

(** [max(min(floor(number), ceil(number), key=key), 1)] for the rational
  [number = num / den]; [key_le a b] decides [key(a) <= key(b)]. *)
Definition round_aspect (num den : Z) (key_le : Z → Z → bool) : Z :=
  let lo := num / den in
  let hi := - (- num / den) in
  Z.max (if key_le lo hi then lo else hi) 1.

(** The size [Image.thumbnail] resizes to, or [None] when the image is
  already inside the box. *)
Definition thumbnail_size (size box : Z * Z) : option (Z * Z) :=
  let '(width, height) := size in
  let '(x, y) := box in
  if (x >=? width) && (y >=? height) then None
  else if x * height >=? y * width then
    Some (round_aspect (y * width) height
            (λ a b, Z.abs (width * y - a * height) <=? Z.abs (width * y - b * height)),
          y)
  else
    Some (x,
          round_aspect (x * height) width
            (λ a b, (a =? 0) ||
                    (Z.abs (width * a - x * height) * b <=?
                     Z.abs (width * b - x * height) * a))).

Definition thumbnail (im : PIL.Image) (box : Z * Z) (resample : PIL.Resampling) :
    result PIL.Image :=
  if ((PIL.size im).1 <=? 0) || ((PIL.size im).2 <=? 0)
  then Raise (Exception "division by zero")
  else
    match thumbnail_size (PIL.size im) box with
    | Some new_size =>
        Return {| PIL.mode := PIL.mode im; PIL.size := new_size;
                  PIL.raster := PIL.raster im |}
    | None => Return im
    end.

Definition save (im : PIL.Image) (format : string) (quality : Z) :
    result (list Byte.byte) :=
  if bool_decide (format = "JPEG") && negb (bool_decide (PIL.mode im ∈ ["1"; "L"; "RGB"; "CMYK"]))
  then Raise (Exception ("cannot write mode " +:+ PIL.mode im +:+ " as JPEG"))
  else
    let '(width, height) := PIL.size im in
    Return (tag_of_mode (PIL.mode im)
            :: Z_byte (width / 256) :: Z_byte width
            :: Z_byte (height / 256) :: Z_byte height
            :: PIL.raster im).

Definition pil : PIL.library :=
  {| PIL.open := open; PIL.convert := convert;
     PIL.thumbnail := thumbnail; PIL.save := save |}.
End Stub.

(** ** Vocabulary of the properties *)

(** The records a listing may show to [uid] under the optional filter. *)
Definition listable (private : option bool) (uid : string) (d : ImageItem.t) : Prop :=
  ImageItem.user_id d = uid ∧ ∀ p, private = Some p → ImageItem.is_private d = p.

Global Instance listable_dec private uid d : Decision (listable private uid d).
Proof.
  unfold listable. destruct private as [p|].
  - destruct (decide (ImageItem.user_id d = uid)) as [Hu|Hu];
      [destruct (decide (ImageItem.is_private d = p)) as [Hp|Hp]|].
    + left. split; [done|]. intros q [= <-]. done.
    + right. intros [_ Hq]. apply Hp. by apply Hq.
    + right. by intros [? _].
  - destruct (decide (ImageItem.user_id d = uid)) as [Hu|Hu].
    + left. split; [done|]. intros q [=].
    + right. by intros [? _].
Defined.

(** The record [delete_image image_id current_user] is aimed at. *)
Definition delete_target (image_id : string) (current_user : User.t)
    (d : ImageItem.t) : Prop :=
  ImageItem.id d = image_id ∧ ImageItem.user_id d = User.id current_user.

Definition delete_query (image_id : string) (current_user : User.t) : query :=
  Q {[ "id" := VStr image_id; "user_id" := VStr (User.id current_user) ]}.

Definition not_found : result (gmap string string) :=
  Raise (HTTPException 404 "Image not found").

Definition deleted : result (gmap string string) :=
  Return {[ "message" := "Image deleted successfully" ]}.

(** The world after the further calls [evs]. *)
Definition add_calls (w : World) (evs : list event) : World :=
  {| db := db w; calls := calls w ++ evs |}.

(** The exception a logged library call raises, if it raises one. *)
Definition raises (pil : PIL.library) (ev : event) (e : exn) : Prop :=
  match ev with
  | EvRead _ => False
  | EvOpen data => PIL.open pil data = Raise e
  | EvConvert image mode => PIL.convert pil image mode = Raise e
  | EvThumbnail image box resample => PIL.thumbnail pil image box resample = Raise e
  | EvSave image format quality => PIL.save pil image format quality = Raise e
  end.

(** The two guards of [process_image]. *)
Definition convert_guard (image : PIL.Image) : bool :=
  bool_decide (PIL.mode image ∈ ["RGBA"; "P"]).

Definition resize_guard (image : PIL.Image) : bool :=
  ((PIL.size image).1 >? max_size.1) || ((PIL.size image).2 >? max_size.2).

Definition format_name (content_type : string) : string :=
  default "JPEG" (format_map !! content_type).

(** The image after the colour-mode step and after the resize step. *)
Definition after_convert (pil : PIL.library) (im0 : PIL.Image) : result PIL.Image :=
  if convert_guard im0 then PIL.convert pil im0 "RGB" else Return im0.

Definition after_resize (pil : PIL.library) (im1 : PIL.Image) : result PIL.Image :=
  if resize_guard im1 then PIL.thumbnail pil im1 max_size PIL.LANCZOS else Return im1.

Definition convert_calls (im0 : PIL.Image) : list event :=
  if convert_guard im0 then [EvConvert im0 "RGB"] else [].

Definition resize_calls (im1 : PIL.Image) : list event :=
  if resize_guard im1 then [EvThumbnail im1 max_size PIL.LANCZOS] else [].

(** The calls of a run of the [try] block that reaches the encoder, given
    the decoded image, the image after colour normalisation and the image
    encoded. *)
Definition pipeline_calls (data : list Byte.byte) (content_type : string)
    (im0 im1 im2 : PIL.Image) : list event :=
  [EvOpen data] ++ convert_calls im0 ++ resize_calls im1
  ++ [EvSave im2 (format_name content_type) 85].

Definition invalid_file_type : exn :=
  HTTPException 400 "Invalid file type. Only JPEG, PNG, GIF, and WebP are allowed.".

Definition file_too_large : exn :=
  HTTPException 400 "File too large. Maximum size is 10MB.".

(** The record [upload_image] builds from the encoder's output [out]. *)
Definition new_image_item (file : UploadFile.t) (caption : string) (is_private : bool)
    (current_user : User.t) (uuid4 : string) (utcnow : datetime)
    (out : list Byte.byte) : ImageItem.t :=
  ImageItem.mk uuid4 (User.id current_user) (UploadFile.filename file) caption
    is_private (b64encode out) (UploadFile.content_type file) (len out) utcnow.

Definition store_image (w : World) (item : ImageItem.t) : World :=
  {| db := {| users := users (db w); images := images (db w) ++ [bson item] |};
     calls := calls w |}.

(** The encoder that belongs to a MIME type. *)
Definition encoder_for (content_type format : string) : Prop :=
  (content_type = "image/jpeg" ∧ format = "JPEG") ∨
  (content_type = "image/jpg" ∧ format = "JPEG") ∨
  (content_type = "image/png" ∧ format = "PNG") ∨
  (content_type = "image/gif" ∧ format = "GIF") ∨
  (content_type = "image/webp" ∧ format = "WEBP").

(** A stored user that blocks the registration of [user_data]. *)
Definition username_or_email_taken (user_data : UserCreate.t) (u : User.t) : Prop :=
  User.username u = UserCreate.username user_data ∨
  User.email u = UserCreate.email user_data.

Global Instance username_or_email_taken_dec user_data u :
  Decision (username_or_email_taken user_data u).
Proof. unfold username_or_email_taken. apply _. Defined.

(** The user [register] stores, and the public view of a user. *)
Definition new_user (hashed_password : string) (user_data : UserCreate.t)
    (uuid4 : string) (created_at : datetime) : User.t :=
  User.mk uuid4 (UserCreate.username user_data) (UserCreate.email user_data)
    hashed_password created_at.

Definition user_view (u : User.t) : UserResponse.t :=
  UserResponse.mk (User.id u) (User.username u) (User.email u) (User.created_at u).

Definition already_registered : exn :=
  HTTPException 400 "Username or email already registered".

Definition incorrect_credentials : exn :=
  HTTPException 401 "Incorrect username or password".

(** The token [register] and [login] issue for a user. *)
Definition issued_token (jwt_encode : gmap string value → string → string → string)
    (u : User.t) (utcnow : datetime) : Token.t :=
  Token.mk
    (create_access_token jwt_encode {[ "sub" := VStr (User.username u) ]}
       (Some (timedelta_minutes ACCESS_TOKEN_EXPIRE_MINUTES)) utcnow)
    "bearer" (user_view u).

(** The world after the user [u] was stored. *)
Definition add_user (w : World) (u : User.t) : World :=
  {| db := {| users := users (db w) ++ [bson u]; images := images (db w) |};
     calls := calls w |}.

(** A public image view with its creation time as the store keeps it. *)
Definition stored_view (r : ImageResponse.t) : ImageResponse.t :=
  ImageResponse.mk (ImageResponse.id r) (ImageResponse.filename r)
    (ImageResponse.caption r) (ImageResponse.is_private r)
    (ImageResponse.image_data r) (ImageResponse.content_type r)
    (ImageResponse.file_size r) (bson_datetime (ImageResponse.created_at r)).

(** The records of the collection that [uid] owns. *)
Definition owned_by (uid : string) (d : ImageItem.t) : Prop :=
  ImageItem.user_id d = uid.

Global Instance owned_by_dec uid d : Decision (owned_by uid d).
Proof. unfold owned_by. apply _. Defined.

(** What a call made by [process_image data content_type] may be: the
    decoding of [data], a conversion to "RGB", a resize to the 1920x1080
    box with LANCZOS, or an encoding at quality 85 in one of the four
    formats, which is JPEG for a content type outside the allow-list. *)
Definition pipeline_call (data : list Byte.byte) (content_type : string)
    (ev : event) : Prop :=
  match ev with
  | EvRead _ => False
  | EvOpen data' => data' = data
  | EvConvert _ mode => mode = "RGB"
  | EvThumbnail _ box resample => box = (1920, 1080) ∧ resample = PIL.LANCZOS
  | EvSave _ format quality =>
      quality = 85 ∧ format ∈ ["JPEG"; "PNG"; "GIF"; "WEBP"] ∧
      (content_type ∉ allowed_types → format = "JPEG")
  end.

(** ** Sample data

    Users, a store, uploads in the reference codec's format and stand-ins
    for the signing and hashing primitives, on which the handlers are run. *)

Definition alice : User.t := User.mk "u-alice" "alice" "alice@x.com" "$2b$12$hash-a" 1000.
Definition bob : User.t := User.mk "u-bob" "bob" "bob@x.com" "$2b$12$hash-b" 2000.

Definition sample_images : list ImageItem.t :=
  [ ImageItem.mk "img-1" "u-alice" "a.png" "first" true "AAAA" "image/png" 3 5000;
    ImageItem.mk "img-2" "u-bob" "b.jpg" "" false "BBBB" "image/jpeg" 3 6000;
    ImageItem.mk "img-3" "u-alice" "c.gif" "third" false "CCCC" "image/gif" 3 7000 ].

Definition sample_world : World :=
  {| db := {| users := [alice; bob]; images := sample_images |}; calls := [] |}.

(** A 2x2 RGBA image, a 2x2 grey image with an alpha band (mode LA), a
    4000x3000 RGB image and a 640x480 RGB image, in the reference codec's
    format (pixel data cut short), with the images the first three decode
    to. *)
Definition rgba_upload : list Byte.byte :=
  [Byte.x01; Byte.x00; Byte.x02; Byte.x00; Byte.x02; Byte.xff; Byte.x00; Byte.x00; Byte.x80].

Definition rgba_image : PIL.Image :=
  {| PIL.mode := "RGBA"; PIL.size := (2, 2);
     PIL.raster := [Byte.xff; Byte.x00; Byte.x00; Byte.x80] |}.

Definition la_upload : list Byte.byte :=
  [Byte.x04; Byte.x00; Byte.x02; Byte.x00; Byte.x02; Byte.x7f; Byte.x80].

Definition la_image : PIL.Image :=
  {| PIL.mode := "LA"; PIL.size := (2, 2); PIL.raster := [Byte.x7f; Byte.x80] |}.

Definition large_upload : list Byte.byte :=
  [Byte.x00; Byte.x0f; Byte.xa0; Byte.x0b; Byte.xb8; Byte.x10; Byte.x20; Byte.x30].

Definition large_image : PIL.Image :=
  {| PIL.mode := "RGB"; PIL.size := (4000, 3000);
     PIL.raster := [Byte.x10; Byte.x20; Byte.x30] |}.

Definition small_upload : list Byte.byte :=
  [Byte.x00; Byte.x02; Byte.x80; Byte.x01; Byte.xe0; Byte.x10; Byte.x20; Byte.x30].

(** Payloads of a given length, without writing them out. *)
Definition zeros (n : Z) : list Byte.byte := replicate (Z.to_nat n) Byte.x00.

Definition rgb_640x480_header : list Byte.byte :=
  [Byte.x00; Byte.x02; Byte.x80; Byte.x01; Byte.xe0].

(** One byte over 10 MiB, declared as plain text. *)
Definition oversized_text_file : UploadFile.t :=
  UploadFile.mk "notes.txt" "text/plain" (zeros (10 * 1024 * 1024 + 1)).

(** One byte over 10 MiB, and exactly 10 MiB, declared as PNG. *)
Definition oversized_png_file : UploadFile.t :=
  UploadFile.mk "huge.png" "image/png"
    (rgb_640x480_header ++ zeros (10 * 1024 * 1024 - 4)).

Definition ten_MiB_png_file : UploadFile.t :=
  UploadFile.mk "full.png" "image/png"
    (rgb_640x480_header ++ zeros (10 * 1024 * 1024 - 5)).

Definition large_jpeg_file : UploadFile.t :=
  UploadFile.mk "large.jpg" "image/jpeg" large_upload.

Definition small_png_file : UploadFile.t :=
  UploadFile.mk "small.png" "image/png" small_upload.

(** Stand-ins for the signing and hashing primitives. *)
Definition sample_jwt_encode (claims : gmap string value) (key algorithm : string) : string :=
  match claims !! "sub" with
  | Some (VStr subject) => algorithm +:+ "." +:+ subject
  | _ => algorithm
  end.

Definition sample_password_hash (password : string) : result string :=
  if bool_decide (String.length password ≤ 72)%nat
  then Return ("hash:" +:+ password)
  else Raise (Exception "password cannot be longer than 72 bytes").

Definition sample_verify_password (plain hashed : string) : result bool :=
  match hashed with
  | String "h" (String "a" (String "s" (String "h" (String ":" secret)))) =>
      Return (bool_decide (secret = plain))
  | _ => Raise (Exception "hash could not be identified")
  end.

(** A stand-in for [jwt.decode] that reads back what [sample_jwt_encode]
    writes. *)
Definition sample_jwt_decode (token key : string) (algorithms : list string) :
    jwt_decoded :=
  match token with
  | String "H" (String "S" (String "2" (String "5" (String "6" (String "." subject))))) =>
      Decoded {[ "sub" := VStr subject ]}
  | _ => PyJWTError "Not enough segments"
  end.

Definition carol_data : UserCreate.t := UserCreate.mk "carol" "carol@x.com" "Pw123!".

Definition bearer (token : string) : HTTPAuthorizationCredentials.t :=
  HTTPAuthorizationCredentials.mk "Bearer" token.

(** * Properties *)

(** ** The model at work *)

Example b64encode_vectors :
  b64encode [Byte.x4d; Byte.x61; Byte.x6e] = "TWFu" ∧
  b64encode [Byte.x4d; Byte.x61] = "TWE=" ∧
  b64encode [Byte.x4d] = "TQ==" ∧
  b64encode [] = "".
Proof. repeat split; reflexivity. Qed.

Example thumbnail_size_vectors :
  Stub.thumbnail_size (4000, 3000) max_size = Some (1440, 1080) ∧
  Stub.thumbnail_size (4000, 1000) max_size = Some (1920, 480) ∧
  Stub.thumbnail_size (1921, 1080) max_size = Some (1920, 1079) ∧
  Stub.thumbnail_size (1920, 1080) max_size = None.
Proof. repeat split; reflexivity. Qed.

(** Alice lists her two images, newest first; with [private=true] only
    the private one. *)
Example get_images_alice :
  (∃ l, (get_images None alice sample_world).1 = Return l ∧
        ImageResponse.id <$> l = ["img-3"; "img-1"]) ∧
  (∃ l, (get_images (Some true) alice sample_world).1 = Return l ∧
        ImageResponse.id <$> l = ["img-1"]).
Proof. split; eexists; split; reflexivity. Qed.

(** Alice deletes her own image; bob's image is not hers to delete. *)
Example delete_image_alice :
  (delete_image "img-3" alice sample_world).1 = deleted ∧
  ImageItem.id <$> images (db (delete_image "img-3" alice sample_world).2)
    = ["img-1"; "img-2"] ∧
  delete_image "img-2" alice sample_world = (not_found, sample_world).
Proof. repeat split; reflexivity. Qed.

(** A payload the codec cannot read, and an LA image to be written as
    JPEG, both end as a 400 that carries the library's message. *)
Example process_image_failures :
  (process_image Stub.pil [Byte.xff; Byte.xd8] "image/jpeg" sample_world).1
    = Raise (HTTPException 400 "Invalid image file: cannot identify image file") ∧
  (process_image Stub.pil la_upload "image/jpeg" sample_world).1
    = Raise (HTTPException 400 "Invalid image file: cannot write mode LA as JPEG").
Proof. split; reflexivity. Qed.

(** A 4000x3000 upload: decoded, resized with LANCZOS, encoded as JPEG at
    quality 85, stored for alice. *)
Example upload_image_large_jpeg :
  let run := upload_image Stub.pil large_jpeg_file "holiday" false alice
               "img-9" 9000 sample_world in
  calls run.2 =
    [EvRead "large.jpg"; EvOpen large_upload;
     EvThumbnail large_image max_size PIL.LANCZOS;
     EvSave {| PIL.mode := "RGB"; PIL.size := (1440, 1080);
               PIL.raster := PIL.raster large_image |} "JPEG" 85] ∧
  ImageItem.user_id <$> images (db run.2) = ["u-alice"; "u-bob"; "u-alice"; "u-alice"] ∧
  ∃ r, run.1 = Return r ∧ ImageResponse.content_type r = "image/jpeg".
Proof. repeat split. eexists. split; reflexivity. Qed.

(** ** Queries against image documents *)

Lemma dict_image_id (d : ImageItem.t) : dict d !! "id" = Some (VStr (ImageItem.id d)).
Proof. reflexivity. Qed.

Lemma dict_image_user_id (d : ImageItem.t) :
  dict d !! "user_id" = Some (VStr (ImageItem.user_id d)).
Proof. reflexivity. Qed.

Lemma dict_image_is_private (d : ImageItem.t) :
  dict d !! "is_private" = Some (VBool (ImageItem.is_private d)).
Proof. reflexivity. Qed.

Lemma owner_query_match (uid : string) (d : ImageItem.t) :
  fields_match {[ "user_id" := VStr uid ]} d ↔ ImageItem.user_id d = uid.
Proof.
  unfold fields_match. rewrite map_Forall_singleton, dict_image_user_id.
  split; congruence.
Qed.

Lemma owner_visibility_query_match (uid : string) (p : bool) (d : ImageItem.t) :
  fields_match (<["is_private" := VBool p]> {[ "user_id" := VStr uid ]}) d ↔
  ImageItem.user_id d = uid ∧ ImageItem.is_private d = p.
Proof.
  unfold fields_match. rewrite map_Forall_insert by reflexivity.
  rewrite map_Forall_singleton, dict_image_user_id, dict_image_is_private.
  split; intros [? ?]; split; congruence.
Qed.

Lemma id_owner_query_match (image_id uid : string) (d : ImageItem.t) :
  fields_match {[ "id" := VStr image_id; "user_id" := VStr uid ]} d ↔
  ImageItem.id d = image_id ∧ ImageItem.user_id d = uid.
Proof.
  unfold fields_match. rewrite map_Forall_insert by reflexivity.
  rewrite map_Forall_singleton, dict_image_user_id, dict_image_id.
  split; intros [? ?]; split; congruence.
Qed.

Global Instance created_desc_trans : Transitive created_desc.
Proof. unfold created_desc. intros a b c ? ?. lia. Qed.

Global Instance created_desc_total : Total created_desc.
Proof. unfold created_desc. intros a b. lia. Qed.

Lemma get_images_query_match private (current_user : User.t) (d : ImageItem.t) :
  let query : gmap string value := {[ "user_id" := VStr (User.id current_user) ]} in
  fields_match
    (match private with
     | Some p => <["is_private" := VBool p]> query
     | None => query
     end) d ↔ listable private (User.id current_user) d.
Proof.
  unfold listable. destruct private as [p|]; simpl.
  - rewrite owner_visibility_query_match. split.
    + intros [? ?]. split; [done|]. by intros q [= <-].
    + intros [? Hp]. split; [done|]. by apply Hp.
  - rewrite owner_query_match. split; [|by intros [? _]].
    intros ?. split; [done|]. intros q [=].
Qed.

(** C1.  For every caller, [get_images] leaves the world untouched and
    answers with the public views of a list [docs] of stored records such
    that: every record is owned by the caller (hence none is owned by any
    user with a different id); when the [private] parameter is supplied,
    every record has that visibility flag; the records are in descending
    order of creation time; there are at most 100 of them; and they are
    the first 100 of a descending arrangement of all the caller's records
    that pass the filter ([docs ++ older] is such an arrangement). *)
Theorem get_images_owner_scoped (private : option bool) (current_user : User.t)
    (w : World) :
  ∃ docs older : list ImageItem.t,
    get_images private current_user w = (Return (ImageResponse.of_item <$> docs), w) ∧
    Forall (λ d, ImageItem.user_id d = User.id current_user) docs ∧
    (∀ other : User.t, User.id other ≠ User.id current_user →
       Forall (λ d, ImageItem.user_id d ≠ User.id other) docs) ∧
    (∀ p, private = Some p → Forall (λ d, ImageItem.is_private d = p) docs) ∧
    StronglySorted created_desc (docs ++ older) ∧
    (length docs ≤ 100)%nat ∧
    (older ≠ [] → length docs = 100%nat) ∧
    docs ++ older ≡ₚ filter (listable private (User.id current_user)) (images (db w)).
Proof.
  set (uid := User.id current_user).
  set (sorted := sort_created_at_desc
                   (filter (listable private uid) (images (db w)))).
  exists (take 100 sorted), (drop 100 sorted).
  assert (Hall : Forall (listable private uid) sorted).
  { apply Forall_forall. intros d Hd. unfold sorted, sort_created_at_desc in Hd.
    rewrite merge_sort_Permutation in Hd. by apply list_elem_of_filter in Hd as [? _]. }
  assert (Hown : Forall (λ d, ImageItem.user_id d = uid) (take 100 sorted)).
  { apply Forall_take. eapply Forall_impl; [exact Hall|]. by intros d [? _]. }
  split; [|split; [|split; [|split; [|split; [|split; [|split]]]]]].
  - unfold get_images, images_find, Collection.to_list, Collection.find.
    unfold mbind, Handler_bind, mret, Handler_ret. simpl.
    erewrite list_filter_iff; [reflexivity|].
    intros d. apply get_images_query_match.
  - exact Hown.
  - intros other Hne. eapply Forall_impl; [exact Hown|].
    simpl. intros d -> Heq. by apply Hne.
  - intros p ->. apply Forall_take. eapply Forall_impl; [exact Hall|].
    intros d [_ Hp]. by apply Hp.
  - rewrite take_drop. apply StronglySorted_merge_sort; apply _.
  - rewrite length_take. lia.
  - intros Hne. rewrite length_take.
    destruct (decide (length sorted ≤ 100)%nat) as [Hle|Hgt]; [|lia].
    rewrite drop_ge in Hne by done. done.
  - rewrite take_drop. unfold sorted, sort_created_at_desc.
    apply merge_sort_Permutation.
Qed.

(** ** Deleting from a collection *)

Section delete_one.
Context `{BaseModel A}.
Implicit Types (q : query) (coll : list A).

Lemma delete_one_none q coll :
    Forall (λ d, ¬ matches q d) coll → Collection.delete_one q coll = (coll, 0).
  Proof.
    induction 1 as [|d rest Hd _ IH]; simpl; [done|].
    destruct (decide (matches q d)); [done|]. by rewrite IH.
  Qed.

Lemma delete_one_first q l1 x l2 :
    Forall (λ d, ¬ matches q d) l1 → matches q x →
    Collection.delete_one q (l1 ++ x :: l2) = (l1 ++ l2, 1).
  Proof.
    induction 1 as [|d rest Hd _ IH]; intros Hx; simpl.
    - destruct (decide (matches q x)); done.
    - destruct (decide (matches q d)); [done|]. by rewrite IH.
  Qed.

(** [delete_one] either finds nothing and changes nothing, or removes
      the first matching document and nothing else. *)
Lemma delete_one_spec q coll :
    (Forall (λ d, ¬ matches q d) coll ∧ Collection.delete_one q coll = (coll, 0)) ∨
    (∃ l1 x l2, coll = l1 ++ x :: l2 ∧ Forall (λ d, ¬ matches q d) l1 ∧
                matches q x ∧ Collection.delete_one q coll = (l1 ++ l2, 1)).
  Proof.
    induction coll as [|d rest IH].
    - left. by split.
    - destruct (decide (matches q d)) as [Hd|Hd].
      + right. exists [], d, rest. repeat split; try done.
        simpl. by destruct (decide (matches q d)).
      + destruct IH as [[Hnone Heq]|(l1 & x & l2 & -> & Hl1 & Hx & Heq)].
        * left. split; [by constructor|]. apply delete_one_none. by constructor.
        * right. exists (d :: l1), x, l2. repeat split; try done; [by constructor|].
          apply (delete_one_first q (d :: l1)); [by constructor|done].
  Qed.
End delete_one.

Lemma delete_query_match image_id current_user d :
  matches (delete_query image_id current_user) d ↔
  delete_target image_id current_user d.
Proof. apply id_owner_query_match. Qed.

Lemma Forall_not_delete_query image_id current_user (coll : list ImageItem.t) :
  Forall (λ d, ¬ matches (delete_query image_id current_user) d) coll ↔
  Forall (λ d, ¬ delete_target image_id current_user d) coll.
Proof. apply Forall_proper; [|done]. intros d. by rewrite delete_query_match. Qed.

Lemma set_images_id (w : World) :
  {| db := {| users := users (db w); images := images (db w) |}; calls := calls w |} = w.
Proof. by destruct w as [[us ims] cs]. Qed.

(** The two ways [delete_image] can run. *)
Lemma delete_image_cases image_id current_user w :
  (Forall (λ d, ¬ delete_target image_id current_user d) (images (db w)) ∧
   delete_image image_id current_user w = (not_found, w)) ∨
  (∃ l1 x l2,
     images (db w) = l1 ++ x :: l2 ∧
     Forall (λ d, ¬ delete_target image_id current_user d) l1 ∧
     delete_target image_id current_user x ∧
     delete_image image_id current_user w =
       (deleted, {| db := {| users := users (db w); images := l1 ++ l2 |};
                    calls := calls w |})).
Proof.
  unfold delete_image, images_delete_one, mbind, Handler_bind.
  fold (delete_query image_id current_user).
  destruct (delete_one_spec (delete_query image_id current_user) (images (db w)))
    as [[Hnone ->]|(l1 & x & l2 & Hsplit & Hl1 & Hx & ->)]; simpl.
  - left. split; [by apply Forall_not_delete_query|].
    unfold raise, not_found. by rewrite set_images_id.
  - right. exists l1, x, l2. split; [done|].
    split; [by apply Forall_not_delete_query|].
    split; [by apply delete_query_match|done].
Qed.

Lemma unique_id_elsewhere image_id (l1 : list ImageItem.t) x l2 :
  NoDup (ImageItem.id <$> (l1 ++ x :: l2)) → ImageItem.id x = image_id →
  Forall (λ d, ImageItem.id d ≠ image_id) (l1 ++ l2).
Proof.
  rewrite fmap_app, fmap_cons. intros Hnd Hx.
  apply NoDup_app in Hnd as (_ & Hl1 & Hnd). apply NoDup_cons in Hnd as [Hl2 _].
  apply Forall_app. split; apply Forall_forall; intros d Hd Hid.
  - apply (Hl1 (ImageItem.id d)); [by apply list_elem_of_fmap_2|].
    rewrite Hid, <- Hx. apply list_elem_of_here.
  - apply Hl2. rewrite Hx, <- Hid. by apply list_elem_of_fmap_2.
Qed.

(** ** Deleting an image *)

(** C2.  For every caller and image id, [delete_image] removes at most
    one record, and a removed record has the given id and the caller as
    owner; the handler never answers 403; when no record has both the
    given id and the caller as owner the answer is 404 "Image not found";
    in a store whose record ids are unique this is the answer when the id
    exists but belongs to another user, and it is the answer to a repeated
    delete of the same id by the same caller. *)
Theorem delete_image_not_found_unless_owned (image_id : string)
    (current_user : User.t) (w : World) :
  ∃ r w',
    delete_image image_id current_user w = (r, w') ∧
    (∃ removed,
       (length removed ≤ 1)%nat ∧
       Forall (delete_target image_id current_user) removed ∧
       images (db w) ≡ₚ removed ++ images (db w')) ∧
    (∀ detail, r ≠ Raise (HTTPException 403 detail)) ∧
    (Forall (λ d, ¬ delete_target image_id current_user d) (images (db w)) →
     r = not_found) ∧
    (NoDup (ImageItem.id <$> images (db w)) →
     ∀ d, d ∈ images (db w) → ImageItem.id d = image_id →
          ImageItem.user_id d ≠ User.id current_user →
     r = not_found) ∧
    (NoDup (ImageItem.id <$> images (db w)) →
     (delete_image image_id current_user w').1 = not_found).
Proof.
  destruct (delete_image_cases image_id current_user w)
    as [[Hnone Hrun]|(l1 & x & l2 & Hsplit & Hl1 & Hx & Hrun)].
  - exists not_found, w. split; [done|]. split; [|split; [|split; [|split]]].
    + exists []. split; [simpl; lia|]. split; [constructor|reflexivity].
    + done.
    + done.
    + done.
    + intros _. by rewrite Hrun.
  - eexists _, _. split; [exact Hrun|]. simpl.
    split; [|split; [|split; [|split]]].
    + exists [x]. split; [simpl; lia|]. split; [by constructor|].
      rewrite Hsplit. simpl. by rewrite Permutation_middle.
    + done.
    + intros Hnone. rewrite Hsplit in Hnone.
      apply Forall_app in Hnone as [_ Hnone]. apply Forall_cons in Hnone as [Hnx _].
      by destruct Hnx.
    + intros Hnd d Hd Hid Hown. rewrite Hsplit in Hd, Hnd.
      assert (Helse := unique_id_elsewhere image_id l1 x l2 Hnd (proj1 Hx)).
      rewrite Forall_forall in Helse.
      apply elem_of_app in Hd as [Hd|Hd].
      * destruct (Helse d); [apply elem_of_app; by left|done].
      * apply elem_of_cons in Hd as [->|Hd]; [by destruct Hx|].
        destruct (Helse d); [apply elem_of_app; by right|done].
    + intros Hnd. rewrite Hsplit in Hnd.
      assert (Helse := unique_id_elsewhere image_id l1 x l2 Hnd (proj1 Hx)).
      match goal with |- (delete_image _ _ ?w2).1 = _ =>
        destruct (delete_image_cases image_id current_user w2)
          as [[_ ->]|(k1 & y & k2 & Hk & _ & Hy & _)]; [done|] end.
      simpl in Hk. rewrite Forall_forall in Helse.
      destruct (Helse y); [|by destruct Hy].
      rewrite Hk. apply elem_of_app. right. apply list_elem_of_here.
Qed.

(** On the sample store: bob's image is "not found" for alice, and alice's
    second delete of her own image is "not found" as well. *)
Lemma delete_image_not_found_witness :
  (delete_image "img-2" alice sample_world).1 = not_found ∧
  (delete_image "img-3" alice (delete_image "img-3" alice sample_world).2).1 = not_found.
Proof.
  assert (Hnd : NoDup (ImageItem.id <$> images (db sample_world))).
  { by apply (bool_decide_unpack _). }
  split.
  - destruct (delete_image_not_found_unless_owned "img-2" alice sample_world)
      as (r & w' & Hrun & _ & _ & _ & Hother & _).
    rewrite Hrun. simpl.
    apply (Hother Hnd (ImageItem.mk "img-2" "u-bob" "b.jpg" "" false "BBBB" "image/jpeg" 3 6000)).
    + apply list_elem_of_further, list_elem_of_here.
    + reflexivity.
    + discriminate.
  - destruct (delete_image_not_found_unless_owned "img-3" alice sample_world)
      as (r & w' & Hrun & _ & _ & _ & _ & Hagain).
    rewrite Hrun. simpl. exact (Hagain Hnd).
Defined.

(** C9.  [delete_image] never touches the users collection (nor makes
    any outside call); when it answers 404 the world is unchanged; when it
    succeeds the images collection loses exactly one record, which has the
    given id and the caller as owner (the first such record), and every
    other image record stays, in order. *)
Theorem delete_image_frame (image_id : string) (current_user : User.t) (w : World) :
  ∃ r w',
    delete_image image_id current_user w = (r, w') ∧
    users (db w') = users (db w) ∧
    calls w' = calls w ∧
    ((r = not_found ∧ w' = w) ∨
     (r = deleted ∧
      ∃ l1 x l2,
        images (db w) = l1 ++ x :: l2 ∧
        images (db w') = l1 ++ l2 ∧
        delete_target image_id current_user x ∧
        Forall (λ d, ¬ delete_target image_id current_user d) l1)).
Proof.
  destruct (delete_image_cases image_id current_user w)
    as [[Hnone Hrun]|(l1 & x & l2 & Hsplit & Hl1 & Hx & Hrun)].
  - exists not_found, w. repeat split; try done. by left.
  - eexists _, _. split; [exact Hrun|]. simpl. repeat split; try done.
    right. split; [done|]. by exists l1, x, l2.
Qed.

(** ** Running the image pipeline *)

Lemma convert_guard_spec image :
  convert_guard image = true ↔ PIL.mode image = "RGBA" ∨ PIL.mode image = "P".
Proof.
  unfold convert_guard. rewrite bool_decide_eq_true, !elem_of_cons, elem_of_nil.
  tauto.
Qed.

Lemma resize_guard_spec image :
  resize_guard image = true ↔ exceeds (PIL.size image) max_size.
Proof.
  unfold resize_guard, exceeds. rewrite orb_true_iff, !Z.gtb_ltb, !Z.ltb_lt. tauto.
Qed.

Lemma resize_guard_false image :
  resize_guard image = false ↔ fits (PIL.size image) max_size.
Proof.
  unfold resize_guard, fits. rewrite orb_false_iff, !Z.gtb_ltb, !Z.ltb_ge. tauto.
Qed.

Lemma add_calls_app w evs1 evs2 :
  add_calls (add_calls w evs1) evs2 = add_calls w (evs1 ++ evs2).
Proof. unfold add_calls. simpl. by rewrite app_assoc. Qed.

Section pipeline.
Variable pil : PIL.library.

(** One library call made through the handler monad. *)
Lemma Image_open_run data w :
  Image_open pil data w = (PIL.open pil data, add_calls w [EvOpen data]).
Proof. reflexivity. Qed.

Lemma Image_convert_run image mode w :
  Image_convert pil image mode w =
  (PIL.convert pil image mode, add_calls w [EvConvert image mode]).
Proof. reflexivity. Qed.

Lemma Image_thumbnail_run image box resample w :
  Image_thumbnail pil image box resample w =
  (PIL.thumbnail pil image box resample, add_calls w [EvThumbnail image box resample]).
Proof. reflexivity. Qed.

Lemma Image_save_run image format quality w :
  Image_save pil image format quality w =
  (PIL.save pil image format quality, add_calls w [EvSave image format quality]).
Proof. reflexivity. Qed.

Lemma bind_run {A B} (m : Handler A) (k : A → Handler B) w :
  (m ≫= k) w =
  match m w with
  | (Return a, w') => k a w'
  | (Raise e, w') => (Raise e, w')
  end.
Proof. reflexivity. Qed.

(** Proof step: run the next bind of the [try] block, whether it is a
    library call or a plain [mret]. *)
Ltac run_call :=
  rewrite bind_run;
  first [ rewrite Image_open_run | rewrite Image_convert_run
        | rewrite Image_thumbnail_run | rewrite Image_save_run
        | unfold mret at 1, Handler_ret at 1 ].

(** The [try] block of [process_image], step by step: which calls are
    made, and where the run stops. *)
Lemma process_image_body_eq data content_type w :
  process_image_body pil data content_type w =
  match PIL.open pil data with
  | Raise e => (Raise e, add_calls w [EvOpen data])
  | Return im0 =>
      match after_convert pil im0 with
      | Raise e => (Raise e, add_calls w ([EvOpen data] ++ convert_calls im0))
      | Return im1 =>
          match after_resize pil im1 with
          | Raise e =>
              (Raise e, add_calls w ([EvOpen data] ++ convert_calls im0 ++ resize_calls im1))
          | Return im2 =>
              match PIL.save pil im2 (format_name content_type) 85 with
              | Raise e =>
                  (Raise e, add_calls w (pipeline_calls data content_type im0 im1 im2))
              | Return out =>
                  (Return (b64encode out, len out),
                   add_calls w (pipeline_calls data content_type im0 im1 im2))
              end
          end
      end
  end.
Proof.
  unfold process_image_body, pipeline_calls, after_convert, after_resize,
    convert_calls, resize_calls.
  fold (format_name content_type). run_call.
  destruct (PIL.open pil data) as [im0|e]; [|reflexivity].
  fold (convert_guard im0).
  destruct (convert_guard im0); run_call.
  - destruct (PIL.convert pil im0 "RGB") as [im1|e]; [|by rewrite add_calls_app].
    fold (resize_guard im1).
    destruct (resize_guard im1); run_call.
    + destruct (PIL.thumbnail pil im1 max_size PIL.LANCZOS) as [im2|e];
        [|by rewrite !add_calls_app].
      run_call. destruct (PIL.save pil im2 _ 85); by rewrite !add_calls_app.
    + run_call. destruct (PIL.save pil im1 _ 85); by rewrite !add_calls_app.
  - fold (resize_guard im0).
    destruct (resize_guard im0); run_call.
    + destruct (PIL.thumbnail pil im0 max_size PIL.LANCZOS) as [im2|e];
        [|by rewrite !add_calls_app].
      run_call. destruct (PIL.save pil im2 _ 85); by rewrite !add_calls_app.
    + run_call. destruct (PIL.save pil im0 _ 85); by rewrite !add_calls_app.
Qed.

(** [process_image] turns whatever the [try] block raises into a 400. *)
Lemma process_image_eq data content_type w :
  process_image pil data content_type w =
  match process_image_body pil data content_type w with
  | (Return r, w') => (Return r, w')
  | (Raise e, w') =>
      (Raise (HTTPException 400 ("Invalid image file: " +:+ exn_str e)), w')
  end.
Proof. reflexivity. Qed.

(** A successful run of the [try] block: every step returned. *)
Lemma process_image_body_Return data content_type w r w' :
  process_image_body pil data content_type w = (Return r, w') →
  ∃ im0 im1 im2 out,
    PIL.open pil data = Return im0 ∧
    after_convert pil im0 = Return im1 ∧
    after_resize pil im1 = Return im2 ∧
    PIL.save pil im2 (format_name content_type) 85 = Return out ∧
    r = (b64encode out, len out) ∧
    w' = add_calls w (pipeline_calls data content_type im0 im1 im2).
Proof.
  rewrite process_image_body_eq.
  destruct (PIL.open pil data) as [im0|e] eqn:Hopen; [|discriminate].
  destruct (after_convert pil im0) as [im1|e] eqn:Hconv; [|discriminate].
  destruct (after_resize pil im1) as [im2|e] eqn:Hth; [|discriminate].
  destruct (PIL.save pil im2 _ 85) as [out|e] eqn:Hsave; [|discriminate].
  intros [= <- <-]. by exists im0, im1, im2, out.
Qed.

Lemma convert_calls_returned im0 im1 :
  after_convert pil im0 = Return im1 →
  Forall (λ ev, ∀ e, ¬ raises pil ev e) (convert_calls im0).
Proof.
  unfold after_convert, convert_calls. destruct (convert_guard im0); [|constructor].
  intros Hc. repeat constructor. simpl. congruence.
Qed.

Lemma resize_calls_returned im1 im2 :
  after_resize pil im1 = Return im2 →
  Forall (λ ev, ∀ e, ¬ raises pil ev e) (resize_calls im1).
Proof.
  unfold after_resize, resize_calls. destruct (resize_guard im1); [|constructor].
  intros Hc. repeat constructor. simpl. congruence.
Qed.

Lemma convert_calls_raised im0 e :
  after_convert pil im0 = Raise e →
  convert_calls im0 = [EvConvert im0 "RGB"] ∧ PIL.convert pil im0 "RGB" = Raise e.
Proof.
  unfold after_convert, convert_calls. by destruct (convert_guard im0).
Qed.

Lemma resize_calls_raised im1 e :
  after_resize pil im1 = Raise e →
  resize_calls im1 = [EvThumbnail im1 max_size PIL.LANCZOS] ∧
  PIL.thumbnail pil im1 max_size PIL.LANCZOS = Raise e.
Proof.
  unfold after_resize, resize_calls. by destruct (resize_guard im1).
Qed.

(** A failed run of the [try] block: the calls in [done] returned, then
    the call [ev] raised [e], and [e] is what the block raises. *)
Lemma process_image_body_Raise data content_type w e w' :
  process_image_body pil data content_type w = (Raise e, w') →
  ∃ done ev,
    w' = add_calls w (done ++ [ev]) ∧
    raises pil ev e ∧
    Forall (λ ev', ∀ e', ¬ raises pil ev' e') done.
Proof.
  rewrite process_image_body_eq.
  destruct (PIL.open pil data) as [im0|e0] eqn:Hopen.
  2: { intros [= <- <-]. exists [], (EvOpen data). by repeat split. }
  assert (Hopened : Forall (λ ev, ∀ e, ¬ raises pil ev e) [EvOpen data]).
  { repeat constructor. simpl. congruence. }
  destruct (after_convert pil im0) as [im1|e1] eqn:Hconv.
  2: { intros [= <- <-]. apply convert_calls_raised in Hconv as [-> Hconv].
       by exists [EvOpen data], (EvConvert im0 "RGB"). }
  apply convert_calls_returned in Hconv.
  destruct (after_resize pil im1) as [im2|e2] eqn:Hth.
  2: { intros [= <- <-]. apply resize_calls_raised in Hth as [-> Hth].
       exists ([EvOpen data] ++ convert_calls im0), (EvThumbnail im1 max_size PIL.LANCZOS).
       rewrite <- app_assoc. split; [done|]. split; [done|]. by apply Forall_app. }
  apply resize_calls_returned in Hth.
  destruct (PIL.save pil im2 _ 85) as [out|e3] eqn:Hsave; [discriminate|].
  intros [= <- <-].
  exists ([EvOpen data] ++ convert_calls im0 ++ resize_calls im1),
    (EvSave im2 (format_name content_type) 85).
  unfold pipeline_calls. rewrite <- !app_assoc. split; [done|]. split; [done|].
  rewrite !Forall_app. by repeat split.
Qed.

(** Every call of a successful run returned. *)
Lemma pipeline_calls_returned data content_type im0 im1 im2 out :
  PIL.open pil data = Return im0 →
  after_convert pil im0 = Return im1 →
  after_resize pil im1 = Return im2 →
  PIL.save pil im2 (format_name content_type) 85 = Return out →
  Forall (λ ev, ∀ e, ¬ raises pil ev e) (pipeline_calls data content_type im0 im1 im2).
Proof.
  intros Hopen Hconv Hth Hsave. unfold pipeline_calls. rewrite !Forall_app.
  split; [|split; [by eapply convert_calls_returned|
           split; [by eapply resize_calls_returned|]]];
    repeat constructor; simpl; congruence.
Qed.
End pipeline.

(** ** Failures of the pipeline *)

(** C5.  Whatever the input, [process_image] changes nothing but the call
    log, and either returns, in which case no library call of the run
    raised, or raises [HTTPException 400] whose detail is
    ["Invalid image file: "] followed by the message of the exception that
    the last library call of the run (decode, convert, resize or encode)
    raised.  So an exception of any of these calls never leaves the
    pipeline as it is. *)
Theorem process_image_errors_normalised (pil : PIL.library)
    (data : list Byte.byte) (content_type : string) (w : World) :
  ∃ r evs,
    process_image pil data content_type w = (r, add_calls w evs) ∧
    match r with
    | Return _ => Forall (λ ev, ∀ e, ¬ raises pil ev e) evs
    | Raise e =>
        ∃ done ev cause,
          evs = done ++ [ev] ∧
          Forall (λ ev', ∀ e', ¬ raises pil ev' e') done ∧
          raises pil ev cause ∧
          e = HTTPException 400 ("Invalid image file: " +:+ exn_str cause)
    end.
Proof.
  rewrite process_image_eq.
  destruct (process_image_body pil data content_type w) as [[r|cause] w'] eqn:Hbody.
  - apply process_image_body_Return in Hbody
      as (im0 & im1 & im2 & out & Hopen & Hconv & Hth & Hsave & -> & ->).
    eexists _, _. split; [reflexivity|].
    by eapply pipeline_calls_returned.
  - apply process_image_body_Raise in Hbody as (done & ev & -> & Hev & Hdone).
    eexists _, _. split; [reflexivity|]. by exists done, ev, cause.
Qed.

(** ** Colour-mode normalisation *)

Lemma EvSave_not_in_resize_calls im1 im format quality :
  EvSave im format quality ∉ resize_calls im1.
Proof.
  unfold resize_calls. destruct (resize_guard im1).
  - rewrite list_elem_of_singleton. discriminate.
  - apply not_elem_of_nil.
Qed.

Lemma EvConvert_not_in_resize_calls im1 im mode :
  EvConvert im mode ∉ resize_calls im1.
Proof.
  unfold resize_calls. destruct (resize_guard im1).
  - rewrite list_elem_of_singleton. discriminate.
  - apply not_elem_of_nil.
Qed.

(** What the run of [process_image] looks like once the payload decoded. *)
Lemma process_image_decoded pil data content_type w im0 :
  PIL.open pil data = Return im0 →
  ∃ r tail,
    process_image pil data content_type w =
      (r, add_calls w (EvOpen data :: convert_calls im0 ++ tail)) ∧
    (∀ im mode, EvConvert im mode ∉ tail) ∧
    (∀ im format quality, EvSave im format quality ∈ tail →
       ∃ im1, after_convert pil im0 = Return im1 ∧ after_resize pil im1 = Return im).
Proof.
  intros Hopen. rewrite process_image_eq, process_image_body_eq, Hopen.
  destruct (after_convert pil im0) as [im1|e1] eqn:Hconv.
  2: { eexists _, []. rewrite app_nil_r. split; [reflexivity|].
       split; intros *; [apply not_elem_of_nil|by intros ?%elem_of_nil]. }
  destruct (after_resize pil im1) as [im2|e2] eqn:Hth.
  2: { eexists _, (resize_calls im1). split; [reflexivity|].
       split; intros *; [apply EvConvert_not_in_resize_calls|].
       by intros ?%EvSave_not_in_resize_calls. }
  assert (Htail : ∀ r : result (string * Z), ∃ r' tail,
    (r, add_calls w (pipeline_calls data content_type im0 im1 im2)) =
      (r', add_calls w (EvOpen data :: convert_calls im0 ++ tail)) ∧
    (∀ im mode, EvConvert im mode ∉ tail) ∧
    (∀ im format quality, EvSave im format quality ∈ tail →
       ∃ im1', Return im1 = Return im1' ∧ after_resize pil im1' = Return im)).
  { intros r. exists r, (resize_calls im1 ++ [EvSave im2 (format_name content_type) 85]).
    split; [reflexivity|]. split; intros *.
    - rewrite elem_of_app, list_elem_of_singleton.
      intros [?%EvConvert_not_in_resize_calls|?]; [done|discriminate].
    - rewrite elem_of_app, list_elem_of_singleton.
      intros [?%EvSave_not_in_resize_calls|[= -> _ _]]; [done|]. by exists im1. }
  destruct (PIL.save pil im2 _ 85) as [out|e3]; apply Htail.
Qed.

(** ** The reference codec meets the contract *)

Lemma round_aspect_bounds num den key_le :
  0 < num → 0 < den →
  1 ≤ Stub.round_aspect num den key_le ∧
  Z.abs (Stub.round_aspect num den key_le * den - num) < den ∧
  Stub.round_aspect num den key_le * den < num + den.
Proof.
  intros Hnum Hden. unfold Stub.round_aspect.
  pose proof (Z.div_mod num den) as Hlo.
  pose proof (Z.mod_pos_bound num den Hden) as Hlo'.
  pose proof (Z.div_mod (- num) den) as Hhi.
  pose proof (Z.mod_pos_bound (- num) den Hden) as Hhi'.
  set (lo := num / den) in *. set (hi := - num / den) in *.
  assert (0 ≤ lo) by nia. assert (1 ≤ - hi) by nia.
  destruct (key_le lo (- hi)); lia.
Qed.

Lemma Stub_thumbnail_size_fits size box new_size :
  0 < size.1 → 0 < size.2 → 0 < box.1 → 0 < box.2 →
  Stub.thumbnail_size size box = Some new_size →
  fits new_size box ∧ aspect_preserved size new_size.
Proof.
  destruct size as [width height], box as [x y]. simpl.
  intros Hw Hh Hx Hy. unfold Stub.thumbnail_size, fits, aspect_preserved.
  destruct ((x >=? width) && (y >=? height)); [discriminate|].
  destruct (x * height >=? y * width) eqn:Hcmp; intros [= <-]; simpl.
  - apply Z.geb_le in Hcmp.
    match goal with |- context [Stub.round_aspect ?n ?d ?k] =>
      destruct (round_aspect_bounds n d k) as (H1 & Habs & Hup); [nia|lia|];
      set (r := Stub.round_aspect n d k) in * end.
    split; [split; [nia|lia]|lia].
  - rewrite Z.geb_leb in Hcmp. apply Z.leb_gt in Hcmp.
    match goal with |- context [Stub.round_aspect ?n ?d ?k] =>
      destruct (round_aspect_bounds n d k) as (H1 & Habs & Hup); [nia|lia|];
      set (r := Stub.round_aspect n d k) in * end.
    split; [split; [lia|nia]|lia].
Qed.

Lemma Stub_contract : PIL_contract Stub.pil.
Proof.
  split.
  - intros im mode im' [= <-]. done.
  - intros im box resample im'. simpl. unfold Stub.thumbnail.
    destruct (((PIL.size im).1 <=? 0) || ((PIL.size im).2 <=? 0)) eqn:Hpos;
      [discriminate|].
    apply orb_false_iff in Hpos as [Hw%Z.leb_gt Hh%Z.leb_gt].
    destruct (Stub.thumbnail_size (PIL.size im) box) as [new_size|] eqn:Hsize;
      intros [= <-]; simpl.
    + split; [done|]. split.
      * intros Hx Hy. by apply (Stub_thumbnail_size_fits (PIL.size im) box).
      * intros _ _ Hx Hy _. by apply (Stub_thumbnail_size_fits (PIL.size im) box).
    + split; [done|].
      destruct (PIL.size im) as [width height], box as [x y]. simpl in *.
      unfold Stub.thumbnail_size in Hsize.
      destruct ((x >=? width) && (y >=? height)) eqn:Hin;
        [|by destruct (x * height >=? y * width)].
      apply andb_true_iff in Hin as [Hx%Z.geb_le Hy%Z.geb_le].
      split.
      * intros _ _. unfold fits. simpl. lia.
      * intros _ _ _ _ _. unfold aspect_preserved. simpl. lia.
Qed.

(** ** Which images are converted *)

Lemma after_resize_mode pil im1 im :
  PIL_contract pil → after_resize pil im1 = Return im → PIL.mode im = PIL.mode im1.
Proof.
  intros Hpil. unfold after_resize. destruct (resize_guard im1).
  - intros Hth. by apply (thumbnail_ok pil Hpil) in Hth as [? _].
  - by intros [= <-].
Qed.

(** The modes [process_image] converts are among those with an alpha
    band or a palette; the ones of that kind it leaves alone are LA, PA,
    RGBa and La. *)
Lemma convert_guard_alpha_or_palette image :
  convert_guard image = true →
  mode_has_alpha (PIL.mode image) || mode_is_palette (PIL.mode image) = true.
Proof. intros [-> | ->]%convert_guard_spec; reflexivity. Qed.

Lemma unconverted_alpha_or_palette image :
  mode_has_alpha (PIL.mode image) || mode_is_palette (PIL.mode image) = true →
  convert_guard image = false →
  PIL.mode image ∈ ["LA"; "PA"; "RGBa"; "La"].
Proof.
  unfold mode_has_alpha, mode_is_palette, convert_guard.
  rewrite orb_true_iff, !bool_decide_eq_true, bool_decide_eq_false.
  rewrite !elem_of_cons, !elem_of_nil. tauto.
Qed.

(** C7, as stated, fails: a decoded image in mode LA (grey with an alpha
    band) is handed to the encoder as it is; no conversion is made and its
    alpha band is kept. *)
Lemma alpha_mode_LA_not_converted :
  PIL.open Stub.pil la_upload = Return la_image ∧
  mode_has_alpha (PIL.mode la_image) = true ∧
  (∃ r, (process_image Stub.pil la_upload "image/png" sample_world).1 = Return r) ∧
  (process_image Stub.pil la_upload "image/png" sample_world).2 =
    add_calls sample_world [EvOpen la_upload; EvSave la_image "PNG" 85].
Proof.
  split; [reflexivity|]. split; [reflexivity|]. split; [|reflexivity].
  eexists. reflexivity.
Qed.

(** C7, amended.  Once the payload decoded to an image [im0]: if the mode
    of [im0] is exactly "RGBA" or "P", the call right after the decoding
    is [convert(im0, "RGB")], it is the only conversion, and an image that
    reaches the encoder is the converted image, resized or not (of mode
    "RGB" for a library that meets its contract, so without an alpha
    band); if the mode is any other one, no conversion is made at all and
    an image that reaches the encoder is [im0] itself, resized or not, in
    its own mode. *)
Theorem process_image_converts_RGBA_and_P (pil : PIL.library)
    (data : list Byte.byte) (content_type : string) (w : World) (im0 : PIL.Image) :
  PIL.open pil data = Return im0 →
  ∃ r after_open,
    process_image pil data content_type w = (r, add_calls w (EvOpen data :: after_open)) ∧
    (PIL.mode im0 = "RGBA" ∨ PIL.mode im0 = "P" →
     ∃ tail,
       after_open = EvConvert im0 "RGB" :: tail ∧
       (∀ im mode, EvConvert im mode ∉ tail) ∧
       (∀ im format quality, EvSave im format quality ∈ tail →
          ∃ im1, PIL.convert pil im0 "RGB" = Return im1 ∧
                 after_resize pil im1 = Return im ∧
                 (PIL_contract pil → PIL.mode im = "RGB" ∧ mode_has_alpha (PIL.mode im) = false))) ∧
    (PIL.mode im0 ≠ "RGBA" → PIL.mode im0 ≠ "P" →
     (∀ im mode, EvConvert im mode ∉ after_open) ∧
     (∀ im format quality, EvSave im format quality ∈ after_open →
        after_resize pil im0 = Return im ∧
        (PIL_contract pil → PIL.mode im = PIL.mode im0))).
Proof.
  intros Hopen.
  destruct (process_image_decoded pil data content_type w im0 Hopen)
    as (r & tail & Hrun & Hnoconv & Hsave).
  exists r, (convert_calls im0 ++ tail). split; [exact Hrun|].
  unfold convert_calls, after_convert in *. split.
  - intros Hmode%convert_guard_spec. rewrite Hmode in *.
    exists tail. split; [done|]. split; [done|].
    intros im format quality (im1 & Hconv & Hth)%Hsave.
    exists im1. split; [done|]. split; [done|]. intros Hpil.
    rewrite (after_resize_mode pil im1 im Hpil Hth).
    apply (convert_ok pil Hpil) in Hconv as [-> _]. done.
  - intros Hrgba Hp.
    destruct (convert_guard im0) eqn:Hguard.
    { apply convert_guard_spec in Hguard as [?|?]; done. }
    simpl. split; [done|].
    intros im format quality (im1 & [= <-] & Hth)%Hsave.
    split; [done|]. intros Hpil. by apply (after_resize_mode pil).
Qed.

(** On the reference codec, a 2x2 RGBA upload is converted right after it
    is decoded. *)
Lemma process_image_converts_RGBA_witness :
  ∃ r tail,
    process_image Stub.pil rgba_upload "image/png" sample_world =
      (r, add_calls sample_world
            (EvOpen rgba_upload :: EvConvert rgba_image "RGB" :: tail)).
Proof.
  destruct (process_image_converts_RGBA_and_P Stub.pil rgba_upload "image/png"
              sample_world rgba_image eq_refl) as (r & after_open & Hrun & Hconv & _).
  destruct (Hconv (or_introl eq_refl)) as (tail & -> & _).
  by exists r, tail.
Defined.

(** ** Uploading *)

Lemma allowed_types_spec (content_type : string) :
  content_type ∈ allowed_types ↔
  content_type = "image/jpeg" ∨ content_type = "image/jpg" ∨
  content_type = "image/png" ∨ content_type = "image/gif" ∨
  content_type = "image/webp".
Proof. unfold allowed_types. rewrite !elem_of_cons, elem_of_nil. tauto. Qed.

Section upload.
Variable pil : PIL.library.
Variables (file : UploadFile.t) (caption : string) (is_private : bool).
Variables (current_user : User.t) (uuid4 : string) (utcnow : datetime).

Lemma file_read_run w :
  file_read file w = (Return (UploadFile.body file),
                      add_calls w [EvRead (UploadFile.filename file)]).
Proof. reflexivity. Qed.

Lemma upload_image_rejected_type w :
  UploadFile.content_type file ∉ allowed_types →
  upload_image pil file caption is_private current_user uuid4 utcnow w =
  (Raise invalid_file_type, w).
Proof.
  intros Hct. unfold upload_image. by rewrite bool_decide_eq_false_2.
Qed.

Lemma upload_image_rejected_size w :
  UploadFile.content_type file ∈ allowed_types →
  10 * 1024 * 1024 < len (UploadFile.body file) →
  upload_image pil file caption is_private current_user uuid4 utcnow w =
  (Raise file_too_large, add_calls w [EvRead (UploadFile.filename file)]).
Proof.
  intros Hct Hlen. unfold upload_image. rewrite bool_decide_eq_true_2 by done.
  cbn [negb]. rewrite bind_run, file_read_run.
  destruct (Z.gtb_spec (len (UploadFile.body file)) (10 * 1024 * 1024)) as [_|?]; [done|lia].
Qed.

Lemma upload_image_processed w :
  UploadFile.content_type file ∈ allowed_types →
  len (UploadFile.body file) ≤ 10 * 1024 * 1024 →
  upload_image pil file caption is_private current_user uuid4 utcnow w =
  match process_image pil (UploadFile.body file) (UploadFile.content_type file)
          (add_calls w [EvRead (UploadFile.filename file)]) with
  | (Return (base64_data, processed_size), w') =>
      let image_item :=
        ImageItem.mk uuid4 (User.id current_user) (UploadFile.filename file) caption
          is_private base64_data (UploadFile.content_type file) processed_size utcnow in
      (Return (ImageResponse.of_item image_item), store_image w' image_item)
  | (Raise e, w') => (Raise e, w')
  end.
Proof.
  intros Hct Hlen. unfold upload_image. rewrite bool_decide_eq_true_2 by done.
  cbn [negb]. rewrite bind_run, file_read_run.
  destruct (Z.gtb_spec (len (UploadFile.body file)) (10 * 1024 * 1024)) as [?|_]; [lia|].
  rewrite bind_run.
  destruct (process_image pil _ _ _) as [[[base64_data processed_size]|e] w']; done.
Qed.

(** A successful upload passed both gates and every step of the pipeline;
    the world afterwards holds the new record and the calls made. *)
Lemma upload_image_Return w r w' :
  upload_image pil file caption is_private current_user uuid4 utcnow w = (Return r, w') →
  UploadFile.content_type file ∈ allowed_types ∧
  len (UploadFile.body file) ≤ 10 * 1024 * 1024 ∧
  ∃ im0 im1 im2 out,
    PIL.open pil (UploadFile.body file) = Return im0 ∧
    after_convert pil im0 = Return im1 ∧
    after_resize pil im1 = Return im2 ∧
    PIL.save pil im2 (format_name (UploadFile.content_type file)) 85 = Return out ∧
    let item := new_image_item file caption is_private current_user uuid4 utcnow out in
    r = ImageResponse.of_item item ∧
    w' = store_image
           (add_calls w (EvRead (UploadFile.filename file)
                         :: pipeline_calls (UploadFile.body file)
                              (UploadFile.content_type file) im0 im1 im2))
           item.
Proof.
  intros Hrun.
  destruct (decide (UploadFile.content_type file ∈ allowed_types)) as [Hct|Hct].
  2: { by rewrite upload_image_rejected_type in Hrun. }
  destruct (Z.le_gt_cases (len (UploadFile.body file)) (10 * 1024 * 1024)) as [Hlen|Hlen].
  2: { by rewrite upload_image_rejected_size in Hrun. }
  split; [done|]. split; [done|].
  rewrite upload_image_processed, process_image_eq in Hrun by done.
  destruct (process_image_body pil _ _ _) as [[[base64_data processed_size]|e] w1]
    eqn:Hbody; [|discriminate].
  apply process_image_body_Return in Hbody
    as (im0 & im1 & im2 & out & Hopen & Hconv & Hth & Hsave & [= -> ->] & ->).
  injection Hrun as <- <-. exists im0, im1, im2, out.
  rewrite add_calls_app. by repeat split.
Qed.
End upload.

Lemma len_zeros n : 0 ≤ n → len (zeros n) = n.
Proof. intros Hn. unfold len, zeros. rewrite length_replicate. lia. Qed.

Lemma len_app (l1 l2 : list Byte.byte) : len (l1 ++ l2) = len l1 + len l2.
Proof. unfold len. rewrite length_app. lia. Qed.

(** Every run of [process_image] starts by decoding its input, and what
    it raises is never the size gate's error. *)
Lemma process_image_starts_with_open pil data content_type w :
  ∃ r evs,
    process_image pil data content_type w = (r, add_calls w (EvOpen data :: evs)) ∧
    ∀ e, r = Raise e → e ≠ file_too_large.
Proof.
  rewrite process_image_eq, process_image_body_eq.
  unfold pipeline_calls.
  assert (Hne : ∀ (cause e : exn),
    Raise (A := string * Z)
      (HTTPException 400 ("Invalid image file: " +:+ exn_str cause)) = Raise e →
    e ≠ file_too_large).
  { intros cause e [= <-]. unfold file_too_large. simpl. discriminate. }
  destruct (PIL.open pil data) as [im0|e0]; [|eexists _, []; eauto].
  destruct (after_convert pil im0) as [im1|e1]; [|eexists _, _; eauto].
  destruct (after_resize pil im1) as [im2|e2]; [|eexists _, _; eauto].
  destruct (PIL.save pil im2 _ 85) as [out|e3]; eexists _, _; eauto.
Qed.

(** C3.  An upload whose declared content type is none of the five
    allowed MIME strings (compared exactly, so case matters) is answered
    with 400 "Invalid file type..." whatever its bytes are, and the world
    is left as it was: the body is not read, its size is not checked,
    nothing is decoded and nothing is stored. *)
Theorem upload_image_invalid_file_type (pil : PIL.library) (file : UploadFile.t)
    (caption : string) (is_private : bool) (current_user : User.t)
    (uuid4 : string) (utcnow : datetime) (w : World) :
  UploadFile.content_type file ≠ "image/jpeg" →
  UploadFile.content_type file ≠ "image/jpg" →
  UploadFile.content_type file ≠ "image/png" →
  UploadFile.content_type file ≠ "image/gif" →
  UploadFile.content_type file ≠ "image/webp" →
  upload_image pil file caption is_private current_user uuid4 utcnow w =
  (Raise (HTTPException 400
            "Invalid file type. Only JPEG, PNG, GIF, and WebP are allowed."), w).
Proof.
  intros H1 H2 H3 H4 H5. apply upload_image_rejected_type.
  rewrite allowed_types_spec. tauto.
Qed.

(** A well-formed RGBA image declared as "image/JPEG" (upper case). *)
Lemma upload_image_invalid_file_type_witness :
  upload_image Stub.pil (UploadFile.mk "shot.jpg" "image/JPEG" rgba_upload)
    "" false alice "img-9" 9000 sample_world =
  (Raise (HTTPException 400
            "Invalid file type. Only JPEG, PNG, GIF, and WebP are allowed."),
   sample_world).
Proof. apply upload_image_invalid_file_type; discriminate. Defined.

(** C4, as stated, fails: an upload of more than 10 MiB whose declared
    type is not allowed is answered with the type error, not with
    "File too large". *)
Lemma oversized_upload_of_disallowed_type :
  10 * 1024 * 1024 < len (UploadFile.body oversized_text_file) ∧
  upload_image Stub.pil oversized_text_file "" false alice "img-9" 9000 sample_world =
    (Raise invalid_file_type, sample_world) ∧
  invalid_file_type ≠ file_too_large.
Proof.
  split; [|split].
  - unfold oversized_text_file. cbn [UploadFile.body]. rewrite len_zeros; lia.
  - apply upload_image_rejected_type. rewrite allowed_types_spec.
    unfold oversized_text_file. cbn [UploadFile.content_type].
    intros [?|[?|[?|[?|?]]]]; discriminate.
  - discriminate.
Qed.

(** C4, amended.  For an upload whose declared type passed the
    allow-list: if its raw body is longer than 10 * 1024 * 1024 bytes the
    answer is 400 "File too large..." and the only call made is the read
    of the body (nothing is decoded, whatever the decoder would say);
    otherwise (10 MiB exactly, or less) the answer is not that error and
    the call after the read is the decoding of the raw body. *)
Theorem upload_image_size_gate (pil : PIL.library) (file : UploadFile.t)
    (caption : string) (is_private : bool) (current_user : User.t)
    (uuid4 : string) (utcnow : datetime) (w : World) :
  UploadFile.content_type file ∈ allowed_types →
  (10 * 1024 * 1024 < len (UploadFile.body file) →
   upload_image pil file caption is_private current_user uuid4 utcnow w =
   (Raise (HTTPException 400 "File too large. Maximum size is 10MB."),
    add_calls w [EvRead (UploadFile.filename file)])) ∧
  (len (UploadFile.body file) ≤ 10 * 1024 * 1024 →
   ∃ r w' evs,
     upload_image pil file caption is_private current_user uuid4 utcnow w = (r, w') ∧
     r ≠ Raise (HTTPException 400 "File too large. Maximum size is 10MB.") ∧
     calls w' = calls w ++ EvRead (UploadFile.filename file)
                        :: EvOpen (UploadFile.body file) :: evs).
Proof.
  intros Hct. split; intros Hlen.
  - by apply upload_image_rejected_size.
  - rewrite upload_image_processed by done.
    destruct (process_image_starts_with_open pil (UploadFile.body file)
                (UploadFile.content_type file)
                (add_calls w [EvRead (UploadFile.filename file)]))
      as (r & evs & -> & Hr).
    destruct r as [[base64_data processed_size]|e].
    + eexists _, _, evs. split; [reflexivity|]. split; [discriminate|].
      simpl. by rewrite <- app_assoc.
    + eexists _, _, evs. split; [reflexivity|]. split.
      * intros [= ->]. by apply (Hr file_too_large).
      * simpl. by rewrite <- app_assoc.
Qed.

(** On the reference codec: a PNG upload of 10 MiB + 1 byte is refused
    before decoding, one of exactly 10 MiB goes on to the decoder. *)
Lemma upload_image_size_gate_witness :
  upload_image Stub.pil oversized_png_file "" false alice "img-9" 9000 sample_world =
    (Raise (HTTPException 400 "File too large. Maximum size is 10MB."),
     add_calls sample_world [EvRead "huge.png"]) ∧
  ∃ r w' evs,
    upload_image Stub.pil ten_MiB_png_file "" false alice "img-9" 9000 sample_world =
      (r, w') ∧
    r ≠ Raise (HTTPException 400 "File too large. Maximum size is 10MB.") ∧
    calls w' = calls sample_world ++ EvRead "full.png"
                 :: EvOpen (UploadFile.body ten_MiB_png_file) :: evs.
Proof.
  assert (Hpng : "image/png" ∈ allowed_types).
  { apply allowed_types_spec. tauto. }
  split.
  - apply (upload_image_size_gate Stub.pil oversized_png_file); [exact Hpng|].
    unfold oversized_png_file. cbn [UploadFile.body].
    rewrite len_app, len_zeros by lia. unfold len, rgb_640x480_header. simpl length. lia.
  - apply (upload_image_size_gate Stub.pil ten_MiB_png_file); [exact Hpng|].
    unfold ten_MiB_png_file. cbn [UploadFile.body].
    rewrite len_app, len_zeros by lia. unfold len, rgb_640x480_header. simpl length. lia.
Defined.

(** ** Downscaling *)

Lemma after_convert_size pil im0 im1 :
  PIL_contract pil → after_convert pil im0 = Return im1 → PIL.size im1 = PIL.size im0.
Proof.
  intros Hpil. unfold after_convert. destruct (convert_guard im0).
  - intros Hconv. by apply (convert_ok pil Hpil) in Hconv as [_ ?].
  - by intros [= <-].
Qed.

Lemma EvThumbnail_not_in_convert_calls im0 im box resample :
  EvThumbnail im box resample ∉ convert_calls im0.
Proof.
  unfold convert_calls. destruct (convert_guard im0).
  - rewrite list_elem_of_singleton. discriminate.
  - apply not_elem_of_nil.
Qed.

(** C6.  For a library that meets its contract and every successful
    upload: the image handed to the encoder, whose encoding is what the
    record stores, fits in 1920x1080.  If the decoded image exceeds that
    bound in either dimension, the encoded image is the result of
    [thumbnail((1920, 1080), LANCZOS)] on the (colour-normalised) image
    and has the aspect ratio of the original up to the rounding of one
    side to a whole pixel; if the decoded image is within the bound, no
    resize call is made and the encoded image has the original size. *)
Theorem upload_image_downscaled (pil : PIL.library) (file : UploadFile.t)
    (caption : string) (is_private : bool) (current_user : User.t)
    (uuid4 : string) (utcnow : datetime) (w : World)
    (r : ImageResponse.t) (w' : World) :
  PIL_contract pil →
  upload_image pil file caption is_private current_user uuid4 utcnow w = (Return r, w') →
  ∃ im0 im1 im2 out evs,
    PIL.open pil (UploadFile.body file) = Return im0 ∧
    after_convert pil im0 = Return im1 ∧
    after_resize pil im1 = Return im2 ∧
    PIL.save pil im2 (format_name (UploadFile.content_type file)) 85 = Return out ∧
    ImageResponse.image_data r = b64encode out ∧
    calls w' = calls w ++ evs ∧
    fits (PIL.size im2) max_size ∧
    (exceeds (PIL.size im0) max_size →
     PIL.thumbnail pil im1 max_size PIL.LANCZOS = Return im2 ∧
     EvThumbnail im1 max_size PIL.LANCZOS ∈ evs ∧
     (0 < (PIL.size im0).1 → 0 < (PIL.size im0).2 →
      aspect_preserved (PIL.size im0) (PIL.size im2))) ∧
    (fits (PIL.size im0) max_size →
     PIL.size im2 = PIL.size im0 ∧
     ∀ im box resample, EvThumbnail im box resample ∉ evs).
Proof.
  intros Hpil Hrun.
  apply upload_image_Return in Hrun
    as (_ & _ & im0 & im1 & im2 & out & Hopen & Hconv & Hth & Hsave & -> & ->).
  exists im0, im1, im2, out. eexists. 
  do 5 (split; [done|]). split; [reflexivity|].
  pose proof (after_convert_size pil im0 im1 Hpil Hconv) as Hsize.
  unfold after_resize in Hth. unfold pipeline_calls, resize_calls.
  destruct (resize_guard im1) eqn:Hguard.
  - pose proof Hguard as Hexc%resize_guard_spec.
    destruct (thumbnail_ok pil Hpil _ _ _ _ Hth) as (_ & Hfits & Haspect).
    rewrite Hsize in Hexc, Haspect.
    split; [by apply Hfits|]. split.
    + intros _. split; [done|]. split.
      * rewrite elem_of_cons, !elem_of_app, !list_elem_of_singleton. tauto.
      * intros Hw Hh. by apply Haspect.
    + intros Hin. rewrite <- Hsize in Hin. apply resize_guard_false in Hin. congruence.
  - injection Hth as <-. pose proof Hguard as Hin%resize_guard_false.
    split; [done|]. split.
    + intros Hexc. rewrite <- Hsize in Hexc. apply resize_guard_spec in Hexc. congruence.
    + intros _. split; [done|]. intros im box resample.
      rewrite elem_of_cons, !elem_of_app, !list_elem_of_singleton, elem_of_nil.
      intros [?|[?|[?%EvThumbnail_not_in_convert_calls|[?|?]]]]; done.
Qed.

(** On the reference codec: a 4000x3000 JPEG upload is encoded at
    1440x1080, a 640x480 PNG upload at its own size. *)
Lemma upload_image_downscaled_witness :
  (∃ im2 out, PIL.thumbnail Stub.pil large_image max_size PIL.LANCZOS = Return im2 ∧
              PIL.save Stub.pil im2 "JPEG" 85 = Return out ∧
              fits (PIL.size im2) max_size ∧
              aspect_preserved (4000, 3000) (PIL.size im2)) ∧
  (∃ im2 out, PIL.save Stub.pil im2 "PNG" 85 = Return out ∧ PIL.size im2 = (640, 480)).
Proof.
  split.
  - edestruct (upload_image_downscaled Stub.pil large_jpeg_file "" false alice
                 "img-9" 9000 sample_world)
      as (im0 & im1 & im2 & out & evs & Hopen & Hconv & Hth & Hsave & _ & _ & Hfits
          & Hbig & _);
      [exact Stub_contract|vm_compute; reflexivity|].
    vm_compute in Hopen. injection Hopen as <-.
    vm_compute in Hconv. injection Hconv as <-.
    destruct Hbig as (Hthumb & _ & Haspect); [left; reflexivity|].
    exists im2, out. split; [exact Hthumb|]. split; [exact Hsave|].
    split; [exact Hfits|]. apply Haspect; reflexivity.
  - edestruct (upload_image_downscaled Stub.pil small_png_file "" false alice
                 "img-9" 9000 sample_world)
      as (im0 & im1 & im2 & out & evs & Hopen & Hconv & Hth & Hsave & _ & _ & _
          & _ & Hsmall);
      [exact Stub_contract|vm_compute; reflexivity|].
    vm_compute in Hopen. injection Hopen as <-.
    destruct Hsmall as [Hsize _]; [split; discriminate|].
    exists im2, out. split; [exact Hsave|exact Hsize].
Defined.

(** ** The encoder chosen for an upload *)

Lemma format_map_allowed (content_type : string) :
  content_type ∈ allowed_types →
  ∃ format, format_map !! content_type = Some format ∧
            format_name content_type = format ∧
            encoder_for content_type format.
Proof.
  rewrite allowed_types_spec. unfold encoder_for.
  intros [-> | [-> | [-> | [-> | ->]]]]; eexists; (split; [reflexivity|]);
    (split; [reflexivity|]); tauto.
Qed.

Lemma EvSave_not_in_convert_calls im0 im format quality :
  EvSave im format quality ∉ convert_calls im0.
Proof.
  unfold convert_calls. destruct (convert_guard im0).
  - rewrite list_elem_of_singleton. discriminate.
  - apply not_elem_of_nil.
Qed.

(** C10.  Every allowed content type has its own entry in [format_map].
    Hence, for every successful upload, the declared content type is an
    allowed one, the record stored and the view returned carry it (the
    stored record is the returned view, created at the clock reading,
    with its creation time as the store keeps it), the format handed to
    the encoder is the entry of [format_map] for it (never the "JPEG"
    default of a missing entry) and is the encoder that belongs to that
    type; the run makes exactly one encoder call, its last call, and the
    record stores that call's output. *)
Theorem upload_format_matches_content_type (pil : PIL.library) (file : UploadFile.t)
    (caption : string) (is_private : bool) (current_user : User.t)
    (uuid4 : string) (utcnow : datetime) (w : World)
    (r : ImageResponse.t) (w' : World) :
  upload_image pil file caption is_private current_user uuid4 utcnow w = (Return r, w') →
  (∀ content_type, content_type ∈ allowed_types → is_Some (format_map !! content_type)) ∧
  UploadFile.content_type file ∈ allowed_types ∧
  ImageResponse.content_type r = UploadFile.content_type file ∧
  (∃ item, images (db w') = images (db w) ++ [item] ∧
           ImageItem.content_type item = UploadFile.content_type file ∧
           ImageResponse.created_at r = utcnow ∧
           stored_view r = ImageResponse.of_item item) ∧
  ∃ format im out evs,
    format_map !! UploadFile.content_type file = Some format ∧
    encoder_for (UploadFile.content_type file) format ∧
    calls w' = calls w ++ evs ++ [EvSave im format 85] ∧
    (∀ im' format' quality', EvSave im' format' quality' ∉ evs) ∧
    PIL.save pil im format 85 = Return out ∧
    ImageResponse.image_data r = b64encode out.
Proof.
  intros Hrun.
  apply upload_image_Return in Hrun
    as (Hct & _ & im0 & im1 & im2 & out & Hopen & Hconv & Hth & Hsave & -> & ->).
  split.
  { intros ct (format & -> & _)%format_map_allowed. by eexists. }
  split; [done|]. split; [done|]. split.
  { eexists. split; [reflexivity|]. split; [reflexivity|]. split; reflexivity. }
  destruct (format_map_allowed _ Hct) as (format & Hmap & Hname & Henc).
  rewrite Hname in *.
  exists format, im2, out,
    (EvRead (UploadFile.filename file) :: [EvOpen (UploadFile.body file)]
     ++ convert_calls im0 ++ resize_calls im1).
  split; [done|]. split; [done|]. split.
  { simpl. unfold pipeline_calls. rewrite Hname. by rewrite <- !app_assoc. }
  split; [|by split].
  intros im' format' quality'.
  rewrite elem_of_cons, !elem_of_app, list_elem_of_singleton.
  intros [?|[?|[?%EvSave_not_in_convert_calls|?%EvSave_not_in_resize_calls]]]; done.
Qed.

(** On the reference codec: a 640x480 upload declared as "image/png" is
    encoded as PNG and stored as "image/png". *)
Lemma upload_format_matches_content_type_witness :
  ∃ r w' im evs,
    upload_image Stub.pil small_png_file "pic" true alice "img-9" 9000 sample_world =
      (Return r, w') ∧
    ImageResponse.content_type r = "image/png" ∧
    calls w' = calls sample_world ++ evs ++ [EvSave im "PNG" 85].
Proof.
  eexists _, _.
  edestruct (upload_format_matches_content_type Stub.pil small_png_file "pic" true
               alice "img-9" 9000 sample_world)
    as (_ & _ & Hct & _ & format & im & out & evs & Hmap & _ & Hcalls & _);
    [vm_compute; reflexivity|].
  injection Hmap as <-. exists im, evs.
  split; [vm_compute; reflexivity|]. split; [exact Hct|exact Hcalls].
Defined.

(** ** Token expiry *)

(** With a non-zero [ttl] the claims expire at [now + ttl]; without one
    they expire at [now + 15 minutes]. *)
Lemma to_encode_expiry (data : gmap string value) (utcnow : datetime) :
  (∀ ttl : timedelta, ttl ≠ 0 →
     to_encode data (Some ttl) utcnow !! "exp" = Some (VDate (utcnow + ttl))) ∧
  to_encode data None utcnow !! "exp" = Some (VDate (utcnow + timedelta_minutes 15)).
Proof.
  unfold to_encode. split.
  - intros ttl Httl. simpl. unfold timedelta_truthy.
    destruct (Z.eqb_spec ttl 0) as [?|_]; [done|]. simpl. apply lookup_insert_eq.
  - simpl. apply lookup_insert_eq.
Qed.

(** The two expiry paths of the token routine: a supplied, non-zero
    [ttl] gives [now + ttl]; no ttl gives [now + 15 minutes]. *)
Theorem create_access_token_expiry_paths (data : gmap string value)
    (utcnow : datetime) (ttl : timedelta) :
  ttl ≠ 0 →
  to_encode data (Some ttl) utcnow !! "exp" = Some (VDate (utcnow + ttl)) ∧
  to_encode data None utcnow !! "exp" = Some (VDate (utcnow + 15 * 60 * 1000000)).
Proof.
  intros Httl. destruct (to_encode_expiry data utcnow) as [Hsome Hnone].
  split; [by apply Hsome|exact Hnone].
Qed.

Lemma create_access_token_expiry_paths_witness :
  to_encode {[ "sub" := VStr "alice" ]} (Some (timedelta_minutes 30)) 8001 !! "exp"
    = Some (VDate (8001 + timedelta_minutes 30)) ∧
  to_encode {[ "sub" := VStr "alice" ]} None 8001 !! "exp"
    = Some (VDate (8001 + 15 * 60 * 1000000)).
Proof. apply create_access_token_expiry_paths. discriminate. Defined.

(** The other claims of the caller are signed unchanged. *)
Lemma to_encode_other (data : gmap string value) expires_delta utcnow (k : string) :
  k ≠ "exp" → to_encode data expires_delta utcnow !! k = data !! k.
Proof. intros Hk. unfold to_encode. by rewrite lookup_insert_ne. Qed.



(** What [register] and [login] sign: the subject, expiring 30 minutes
    after the clock reading. *)
Lemma handler_claims (username : string) (utcnow : datetime) :
  let claims :=
    to_encode {[ "sub" := VStr username ]}
      (Some (timedelta_minutes ACCESS_TOKEN_EXPIRE_MINUTES)) utcnow in
  claims !! "exp" = Some (VDate (utcnow + 30 * 60 * 1000000)) ∧
  claims !! "sub" = Some (VStr username).
Proof.
  split.
  - by apply to_encode_expiry.
  - rewrite to_encode_other by done. apply lookup_singleton_eq.
Qed.



(** The token-issuing routine with a supplied, non-zero ttl, and the two
    handlers: a token returned by [register] or [login] is the signature
    of claims that carry the user name as subject and expire 30 minutes
    after the clock reading. *)
Theorem handlers_issue_30_minute_tokens
    (jwt_encode : gmap string value → string → string → string)
    (get_password_hash : string → result string)
    (verify_password : string → string → result bool)
    (utcnow : datetime) (w w' : World) (token : Token.t) :
  (∃ (new_user : UserCreate.t) uuid4 created_at,
     register jwt_encode get_password_hash new_user uuid4 created_at utcnow w
     = (Return token, w')) ∨
  (∃ credentials : UserLogin.t,
     login jwt_encode verify_password credentials utcnow w = (Return token, w')) →
  ∃ claims,
    Token.access_token token = jwt_encode claims SECRET_KEY ALGORITHM ∧
    claims !! "exp" = Some (VDate (utcnow + 30 * 60 * 1000000)) ∧
    claims !! "sub" = Some (VStr (UserResponse.username (Token.user token))).
Proof.
  intros [(new_user & uuid4 & created_at & Hrun)|(credentials & Hrun)].
  - unfold register in Hrun. rewrite bind_run in Hrun.
    unfold users_find_one in Hrun.
    destruct (Collection.find_one _ _) as [existing|]; [discriminate|].
    rewrite bind_run in Hrun. unfold lift in Hrun.
    destruct (get_password_hash _) as [hashed_password|e]; [|discriminate].
    rewrite bind_run in Hrun. unfold users_insert_one in Hrun.
    injection Hrun as <- _. eexists. split; [reflexivity|]. apply handler_claims.
  - unfold login in Hrun. rewrite bind_run in Hrun.
    unfold users_find_one in Hrun.
    destruct (Collection.find_one _ _) as [user|]; [|discriminate].
    rewrite bind_run in Hrun. unfold lift in Hrun.
    destruct (verify_password _ _) as [[|]|e]; [|discriminate..].
    injection Hrun as <- _. eexists. split; [reflexivity|]. apply handler_claims.
Qed.

Lemma handlers_issue_30_minute_tokens_witness :
  ∃ token w' claims,
    register sample_jwt_encode sample_password_hash
      (UserCreate.mk "carol" "carol@x.com" "Pw123!") "u-carol" 8000 8001 sample_world
    = (Return token, w') ∧
    Token.access_token token = sample_jwt_encode claims SECRET_KEY ALGORITHM ∧
    claims !! "exp" = Some (VDate (8001 + 30 * 60 * 1000000)).
Proof.
  eexists _, _.
  edestruct (handlers_issue_30_minute_tokens sample_jwt_encode sample_password_hash
               sample_verify_password 8001 sample_world)
    as (claims & Htoken & Hexp & _).
  { left. exists (UserCreate.mk "carol" "carol@x.com" "Pw123!"), "u-carol", 8000.
    vm_compute. reflexivity. }
  exists claims. split; [vm_compute; reflexivity|]. split; [exact Htoken|exact Hexp].
Defined.

(** ** Looking up one document *)

Section find_one.
Context `{BaseModel A}.
Implicit Types (q : query) (coll : list A).

Lemma find_one_None q coll :
  Collection.find_one q coll = None ↔ Forall (λ d, ¬ matches q d) coll.
Proof.
  unfold Collection.find_one, Collection.find. rewrite head_None. split.
  - intros Hnil. apply Forall_forall. intros d Hd Hm.
    by apply (filter_nil_not_elem_of _ _ d Hnil).
  - induction 1 as [|d rest Hd _ IH]; [done|]. by rewrite filter_cons_False.
Qed.

Lemma find_one_first q l1 x l2 :
  Forall (λ d, ¬ matches q d) l1 → matches q x →
  Collection.find_one q (l1 ++ x :: l2) = Some x.
Proof.
  intros Hl1 Hx. unfold Collection.find_one, Collection.find.
  rewrite filter_app, filter_cons_True by done.
  apply find_one_None in Hl1. unfold Collection.find_one, Collection.find in Hl1.
  apply head_None in Hl1. by rewrite Hl1.
Qed.

(** [find_one] returns the first matching document of the collection. *)
Lemma find_one_Some q coll x :
  Collection.find_one q coll = Some x →
  ∃ l1 l2, coll = l1 ++ x :: l2 ∧ Forall (λ d, ¬ matches q d) l1 ∧ matches q x.
Proof.
  induction coll as [|d rest IH]; [done|].
  destruct (decide (matches q d)) as [Hd|Hd].
  - unfold Collection.find_one, Collection.find. rewrite filter_cons_True by done.
    intros [= <-]. by exists [], rest.
  - unfold Collection.find_one, Collection.find. rewrite filter_cons_False by done.
    intros (l1 & l2 & -> & Hl1 & Hx)%IH. exists (d :: l1), l2.
    split; [done|]. split; [by constructor|done].
Qed.
End find_one.

(** ** Queries against user documents *)

Lemma username_query_match (v : value) (u : User.t) :
  fields_match {[ "username" := v ]} u ↔ v = VStr (User.username u).
Proof.
  unfold fields_match. rewrite map_Forall_singleton.
  change (dict u !! "username") with (Some (VStr (User.username u))).
  split; congruence.
Qed.

Lemma email_query_match (v : value) (u : User.t) :
  fields_match {[ "email" := v ]} u ↔ v = VStr (User.email u).
Proof.
  unfold fields_match. rewrite map_Forall_singleton.
  change (dict u !! "email") with (Some (VStr (User.email u))).
  split; congruence.
Qed.

Lemma registration_query_match (user_data : UserCreate.t) (u : User.t) :
  matches (QOr [ {[ "username" := VStr (UserCreate.username user_data) ]};
                 {[ "email" := VStr (UserCreate.email user_data) ]} ]) u ↔
  username_or_email_taken user_data u.
Proof.
  unfold username_or_email_taken. simpl.
  rewrite !Exists_cons, Exists_nil, username_query_match, email_query_match.
  split.
  - intros [[= ->]|[[= ->]|[]]]; tauto.
  - intros [<-|<-]; tauto.
Qed.

(** ** Registration and login *)

Section accounts.
Variable jwt_encode : gmap string value → string → string → string.
Variable get_password_hash : string → result string.
Variable verify_password : string → string → result bool.

Lemma register_run user_data uuid4 created_at utcnow w :
  register jwt_encode get_password_hash user_data uuid4 created_at utcnow w =
  if decide (Exists (username_or_email_taken user_data) (users (db w)))
  then (Raise already_registered, w)
  else
    match get_password_hash (UserCreate.password user_data) with
    | Return hashed_password =>
        let user := new_user hashed_password user_data uuid4 created_at in
        (Return (issued_token jwt_encode user utcnow), add_user w user)
    | Raise e => (Raise e, w)
    end.
Proof.
  unfold register. rewrite bind_run. unfold users_find_one.
  destruct (Collection.find_one _ (users (db w))) as [existing|] eqn:Hfind.
  - apply find_one_Some in Hfind as (l1 & l2 & Hsplit & _ & Hx).
    apply registration_query_match in Hx.
    rewrite decide_True; [done|].
    rewrite Hsplit. apply Exists_app. right. by apply Exists_cons_hd.
  - apply find_one_None in Hfind.
    rewrite decide_False.
    + rewrite bind_run. unfold lift.
      by destruct (get_password_hash _) as [hashed_password|e].
    + intros (u & Hu & Htaken)%Exists_exists.
      rewrite Forall_forall in Hfind. apply (Hfind u Hu).
      by apply registration_query_match.
Qed.

Lemma login_run user_data utcnow w :
  login jwt_encode verify_password user_data utcnow w =
  match Collection.find_one
          (Q {[ "username" := VStr (UserLogin.username user_data) ]}) (users (db w)) with
  | Some user =>
      match verify_password (UserLogin.password user_data) (User.hashed_password user) with
      | Return true => (Return (issued_token jwt_encode user utcnow), w)
      | Return false => (Raise incorrect_credentials, w)
      | Raise e => (Raise e, w)
      end
  | None => (Raise incorrect_credentials, w)
  end.
Proof.
  unfold login. rewrite bind_run. unfold users_find_one.
  destruct (Collection.find_one _ _) as [user|]; [|done].
  rewrite bind_run. unfold lift.
  by destruct (verify_password _ _) as [[|]|e].
Qed.

Lemma username_matches (name : string) (u : User.t) :
  matches (Q {[ "username" := VStr name ]}) u ↔ User.username u = name.
Proof. simpl. rewrite username_query_match. split; congruence. Qed.
End accounts.

(** Registration is refused with the 400 exactly when a stored user
    already has the user name or the e-mail address, and then nothing
    changes.  Otherwise the password is hashed: if the hash context
    raises, its exception leaves the handler as it is and nothing is
    stored; if it returns, one user is appended (the given name and
    address, the hash, the generated id, and the creation time as the
    store keeps it, to the millisecond) and the answer carries a bearer
    token and the public view of the user with the creation time in full.
    Images and the call log are never touched. *)
Theorem register_outcome
    (jwt_encode : gmap string value → string → string → string)
    (get_password_hash : string → result string)
    (user_data : UserCreate.t) (uuid4 : string) (created_at utcnow : datetime)
    (w : World) :
  ∃ r w',
    register jwt_encode get_password_hash user_data uuid4 created_at utcnow w = (r, w') ∧
    images (db w') = images (db w) ∧
    calls w' = calls w ∧
    (Exists (username_or_email_taken user_data) (users (db w)) →
     r = Raise already_registered ∧ w' = w) ∧
    (Forall (λ u, ¬ username_or_email_taken user_data u) (users (db w)) →
     (∀ e, get_password_hash (UserCreate.password user_data) = Raise e →
        r = Raise e ∧ w' = w) ∧
     (∀ hashed_password,
        get_password_hash (UserCreate.password user_data) = Return hashed_password →
        users (db w') =
          users (db w) ++
          [User.mk uuid4 (UserCreate.username user_data) (UserCreate.email user_data)
             hashed_password (bson_datetime created_at)] ∧
        ∃ token,
          r = Return token ∧
          Token.token_type token = "bearer" ∧
          Token.user token =
            UserResponse.mk uuid4 (UserCreate.username user_data)
              (UserCreate.email user_data) created_at)).
Proof.
  rewrite register_run.
  destruct (decide (Exists _ _)) as [Hex|Hnone].
  - exists (Raise already_registered), w.
    split; [done|]. split; [done|]. split; [done|]. split; [done|].
    intros Hall. by apply Forall_not_Exists in Hall.
  - destruct (get_password_hash _) as [hashed_password|e].
    + eexists _, _. split; [reflexivity|]. split; [done|]. split; [done|].
      split; [done|]. intros _. split; [done|].
      intros h [= <-]. split; [done|]. by eexists.
    + exists (Raise e), w. split; [done|]. split; [done|]. split; [done|].
      split; [done|]. intros _. split; [|done]. by intros e' [= <-].
Qed.

(** On the sample store, with a password the hash context refuses:
    nothing is stored and the context's exception is the outcome. *)
Lemma register_outcome_witness :
  let long_password := String.concat "" (replicate 73 "x") in
  register sample_jwt_encode sample_password_hash
    (UserCreate.mk "carol" "carol@x.com" long_password) "u-carol" 8123 8500 sample_world
  = (Raise (Exception "password cannot be longer than 72 bytes"), sample_world).
Proof.
  cbv zeta.
  match goal with |- register _ _ ?d _ _ _ _ = _ =>
    destruct (register_outcome sample_jwt_encode sample_password_hash d
                "u-carol" 8123 8500 sample_world)
      as (r & w' & -> & _ & _ & _ & Hfresh) end.
  destruct Hfresh as [Hraise _].
  - by apply (bool_decide_unpack _).
  - destruct (Hraise (Exception "password cannot be longer than 72 bytes"))
      as [-> ->]; [vm_compute|]; reflexivity.
Defined.

(** [register] keeps user names unique and e-mail addresses unique, and,
    given an id that no stored user has, ids too. *)
Theorem register_keeps_users_unique
    (jwt_encode : gmap string value → string → string → string)
    (get_password_hash : string → result string)
    (user_data : UserCreate.t) (uuid4 : string) (created_at utcnow : datetime)
    (w : World) :
  NoDup (User.username <$> users (db w)) →
  NoDup (User.email <$> users (db w)) →
  let w' :=
    (register jwt_encode get_password_hash user_data uuid4 created_at utcnow w).2 in
  NoDup (User.username <$> users (db w')) ∧
  NoDup (User.email <$> users (db w')) ∧
  (NoDup (User.id <$> users (db w)) → uuid4 ∉ User.id <$> users (db w) →
   NoDup (User.id <$> users (db w'))).
Proof.
  intros Hnames Hemails. rewrite register_run. cbv zeta.
  destruct (decide (Exists _ _)) as [Hex|Hnone]; [done|].
  destruct (get_password_hash _) as [hashed_password|e]; [|done]. simpl.
  apply not_Exists_Forall in Hnone; [|apply _]. rewrite Forall_forall in Hnone.
  rewrite !fmap_app. simpl.
  split; [|split].
  - apply NoDup_app. split; [done|]. split; [|apply NoDup_singleton].
    intros name (u & -> & Hu)%list_elem_of_fmap Hin%list_elem_of_singleton.
    apply (Hnone u Hu). by left.
  - apply NoDup_app. split; [done|]. split; [|apply NoDup_singleton].
    intros email (u & -> & Hu)%list_elem_of_fmap Hin%list_elem_of_singleton.
    apply (Hnone u Hu). by right.
  - intros Hids Hfresh. apply NoDup_app. split; [done|].
    split; [|apply NoDup_singleton].
    intros id Hid ->%list_elem_of_singleton. done.
Qed.

Lemma register_keeps_users_unique_witness :
  let w' := (register sample_jwt_encode sample_password_hash carol_data
               "u-carol" 8000 8001 sample_world).2 in
  NoDup (User.username <$> users (db w')) ∧ NoDup (User.email <$> users (db w')).
Proof.
  destruct (register_keeps_users_unique sample_jwt_encode sample_password_hash
              carol_data "u-carol" 8000 8001 sample_world) as (Hn & He & _).
  - by apply (bool_decide_unpack _).
  - by apply (bool_decide_unpack _).
  - by split.
Defined.

(** [login] never changes the world.  When it succeeds, a stored user has
    the given name, the hash context verified the password against that
    user's hash, and the answer is that user's token and public view.
    When it raises, either the error is the 401 "Incorrect username or
    password" (the same for an unknown name and for a password that does
    not verify), or it is an exception the hash context raised on a
    stored user's hash, which the handler does not catch.  It answers the
    401 when every stored user of that name fails verification, and (user
    names being unique) it answers for the user of that name as the hash
    context decides: a token, the 401, or the context's exception. *)
Theorem login_outcome
    (jwt_encode : gmap string value → string → string → string)
    (verify_password : string → string → result bool)
    (user_data : UserLogin.t) (utcnow : datetime) (w : World) :
  ∃ r,
    login jwt_encode verify_password user_data utcnow w = (r, w) ∧
    (∀ token, r = Return token →
       ∃ u, u ∈ users (db w) ∧
            User.username u = UserLogin.username user_data ∧
            verify_password (UserLogin.password user_data) (User.hashed_password u)
              = Return true ∧
            token = issued_token jwt_encode u utcnow) ∧
    (∀ e, r = Raise e →
       e = HTTPException 401 "Incorrect username or password" ∨
       ∃ u, u ∈ users (db w) ∧
            User.username u = UserLogin.username user_data ∧
            verify_password (UserLogin.password user_data) (User.hashed_password u)
              = Raise e) ∧
    (Forall (λ u, User.username u = UserLogin.username user_data →
                  verify_password (UserLogin.password user_data)
                    (User.hashed_password u) = Return false) (users (db w)) →
     r = Raise (HTTPException 401 "Incorrect username or password")) ∧
    (NoDup (User.username <$> users (db w)) →
     ∀ u, u ∈ users (db w) →
          User.username u = UserLogin.username user_data →
     r = match verify_password (UserLogin.password user_data) (User.hashed_password u) with
         | Return true => Return (issued_token jwt_encode u utcnow)
         | Return false => Raise (HTTPException 401 "Incorrect username or password")
         | Raise e => Raise e
         end).
Proof.
  rewrite login_run.
  destruct (Collection.find_one _ (users (db w))) as [user|] eqn:Hfind.
  - apply find_one_Some in Hfind as (l1 & l2 & Hsplit & Hl1 & Hname%username_matches).
    assert (Huser : user ∈ users (db w)).
    { rewrite Hsplit. apply elem_of_app. right. apply list_elem_of_here. }
    assert (Honly : NoDup (User.username <$> users (db w)) →
                    ∀ u, u ∈ users (db w) → User.username u = User.username user →
                         u = user).
    { rewrite Hsplit, fmap_app, fmap_cons. intros Hnd u Hu Heq.
      apply NoDup_app in Hnd as (_ & Hdisj & Hnd). apply NoDup_cons in Hnd as [Hl2 _].
      apply elem_of_app in Hu as [Hu|Hu].
      - destruct (Hdisj (User.username u)); [by apply list_elem_of_fmap_2|].
        rewrite Heq. apply list_elem_of_here.
      - apply elem_of_cons in Hu as [->|Hu]; [done|].
        destruct Hl2. rewrite <- Heq. by apply list_elem_of_fmap_2. }
    assert (Hdecides : NoDup (User.username <$> users (db w)) →
              ∀ u, u ∈ users (db w) → User.username u = UserLogin.username user_data →
                   u = user).
    { intros Hnd u Hu Hu_name. apply (Honly Hnd u Hu). congruence. }
    destruct (verify_password _ (User.hashed_password user)) as [[|]|e] eqn:Hverify.
    + eexists. split; [reflexivity|]. split; [|split; [|split]].
      * intros token [= <-]. by exists user.
      * intros e [=].
      * intros Hall. rewrite Forall_forall in Hall.
        specialize (Hall user Huser Hname). congruence.
      * intros Hnd u Hu Hu_name. rewrite (Hdecides Hnd u Hu Hu_name), Hverify. done.
    + eexists. split; [reflexivity|]. split; [|split; [|split]].
      * intros token [=].
      * intros e [= <-]. by left.
      * done.
      * intros Hnd u Hu Hu_name. rewrite (Hdecides Hnd u Hu Hu_name), Hverify. done.
    + eexists. split; [reflexivity|]. split; [|split; [|split]].
      * intros token [=].
      * intros e' [= <-]. right. by exists user.
      * intros Hall. rewrite Forall_forall in Hall.
        specialize (Hall user Huser Hname). congruence.
      * intros Hnd u Hu Hu_name. rewrite (Hdecides Hnd u Hu Hu_name), Hverify. done.
  - apply find_one_None in Hfind. rewrite Forall_forall in Hfind.
    eexists. split; [reflexivity|]. split; [|split; [|split]].
    + intros token [=].
    + intros e [= <-]. by left.
    + done.
    + intros _ u Hu Hu_name. destruct (Hfind u Hu). by apply username_matches.
Qed.

(** On the sample store, where alice's stored hash is one the hash
    context cannot identify: her login ends with the context's exception,
    not with the 401; a user with a hash the context knows logs in. *)
Lemma login_outcome_witness :
  login sample_jwt_encode sample_verify_password (UserLogin.mk "alice" "wonderland")
    9000 sample_world
  = (Raise (Exception "hash could not be identified"), sample_world) ∧
  let dave := User.mk "u-dave" "dave" "dave@x.com" "hash:wonderland" 1000 in
  let w := {| db := {| users := [dave; bob]; images := sample_images |}; calls := [] |} in
  login sample_jwt_encode sample_verify_password (UserLogin.mk "dave" "wonderland") 9000 w
  = (Return (issued_token sample_jwt_encode dave 9000), w).
Proof.
  split.
  - destruct (login_outcome sample_jwt_encode sample_verify_password
                (UserLogin.mk "alice" "wonderland") 9000 sample_world)
      as (r & -> & _ & _ & _ & Hunique).
    f_equal. rewrite (Hunique ltac:(by apply (bool_decide_unpack _)) alice).
    + reflexivity.
    + apply list_elem_of_here.
    + reflexivity.
  - cbv zeta.
    match goal with |- login _ _ ?d ?t ?w = _ =>
      destruct (login_outcome sample_jwt_encode sample_verify_password d t w)
        as (r & -> & _ & _ & _ & Hunique) end.
    f_equal.
    match goal with |- _ = Return (issued_token _ ?u _) =>
      rewrite (Hunique ltac:(by apply (bool_decide_unpack _)) u) end.
    + reflexivity.
    + apply list_elem_of_here.
    + reflexivity.
Defined.

(** When the hash context verifies the password against the hash it
    produced for it, a user who has just registered can log in with the
    same name and password.  The view that comes back has the same id,
    name and address as the view registration returned, and the creation
    time as the store keeps it, cut to the millisecond. *)
Theorem register_then_login
    (jwt_encode : gmap string value → string → string → string)
    (get_password_hash : string → result string)
    (verify_password : string → string → result bool)
    (user_data : UserCreate.t) (uuid4 : string) (created_at utcnow later : datetime)
    (w w' : World) (token : Token.t) :
  (∀ hashed_password,
     get_password_hash (UserCreate.password user_data) = Return hashed_password →
     verify_password (UserCreate.password user_data) hashed_password = Return true) →
  register jwt_encode get_password_hash user_data uuid4 created_at utcnow w
    = (Return token, w') →
  ∃ token',
    login jwt_encode verify_password
      (UserLogin.mk (UserCreate.username user_data) (UserCreate.password user_data))
      later w' = (Return token', w') ∧
    Token.user token' =
      UserResponse.mk (UserResponse.id (Token.user token))
        (UserResponse.username (Token.user token))
        (UserResponse.email (Token.user token))
        (bson_datetime (UserResponse.created_at (Token.user token))).
Proof.
  intros Hverify. rewrite register_run.
  destruct (decide (Exists _ _)) as [?|Hnone]; [discriminate|].
  destruct (get_password_hash _) as [hashed_password|e] eqn:Hhash; [|discriminate].
  intros [= <- <-].
  apply not_Exists_Forall in Hnone; [|apply _].
  rewrite login_run. simpl.
  rewrite find_one_first with (l2 := []).
  - simpl. rewrite (Hverify hashed_password eq_refl). by eexists.
  - eapply Forall_impl; [exact Hnone|]. simpl.
    intros u Hu Hname%username_matches. apply Hu. by left.
  - by apply username_matches.
Qed.

(** Carol registers at a time that is not a whole millisecond and logs
    in: her view comes back with the microseconds dropped. *)
Lemma register_then_login_witness :
  ∃ token w' token',
    register sample_jwt_encode sample_password_hash carol_data "u-carol" 8123 8500
      sample_world = (Return token, w') ∧
    login sample_jwt_encode sample_verify_password (UserLogin.mk "carol" "Pw123!")
      9000 w' = (Return token', w') ∧
    UserResponse.created_at (Token.user token) = 8123 ∧
    UserResponse.created_at (Token.user token') = 8000.
Proof.
  eexists _, _.
  edestruct (register_then_login sample_jwt_encode sample_password_hash
               sample_verify_password carol_data "u-carol" 8123 8500 9000 sample_world)
    as (token' & Hlogin & Hview).
  - intros hashed_password [= <-]. reflexivity.
  - vm_compute. reflexivity.
  - exists token'. split; [vm_compute; reflexivity|]. split; [exact Hlogin|].
    split; [reflexivity|]. rewrite Hview. reflexivity.
Defined.

(** ** The access-control gate *)

Section gate_facts.
Variable jwt_decode : string → string → list string → jwt_decoded.

Lemma get_current_user_run credentials w :
  get_current_user jwt_decode credentials w =
  match jwt_decode (HTTPAuthorizationCredentials.credentials credentials)
          SECRET_KEY [ALGORITHM] with
  | Decoded payload =>
      match payload !! "sub" with
      | Some username =>
          match Collection.find_one (Q {[ "username" := username ]}) (users (db w)) with
          | Some user => (Return user, w)
          | None => (Raise credentials_exception, w)
          end
      | None => (Raise credentials_exception, w)
      end
  | PyJWTError _ => (Raise credentials_exception, w)
  end.
Proof.
  unfold get_current_user. destruct (jwt_decode _ _ _) as [payload|msg]; [|done].
  destruct (payload !! "sub") as [username|]; [|done].
  rewrite bind_run. unfold users_find_one.
  by destruct (Collection.find_one _ _).
Qed.

Lemma subject_matches (v : value) (u : User.t) :
  matches (Q {[ "username" := v ]}) u ↔ v = VStr (User.username u).
Proof. simpl. apply username_query_match. Qed.

(** The gate fails for credentials that name no stored user. *)
Lemma get_current_user_rejects credentials w :
  (∀ payload u,
     jwt_decode (HTTPAuthorizationCredentials.credentials credentials)
       SECRET_KEY [ALGORITHM] = Decoded payload →
     u ∈ users (db w) → payload !! "sub" ≠ Some (VStr (User.username u))) →
  get_current_user jwt_decode credentials w = (Raise credentials_exception, w).
Proof.
  intros Hnone. rewrite get_current_user_run.
  destruct (jwt_decode _ _ _) as [payload|msg]; [|done].
  destruct (payload !! "sub") as [username|] eqn:Hsub; [|done].
  destruct (Collection.find_one _ _) as [user|] eqn:Hfind; [|done].
  apply find_one_Some in Hfind as (l1 & l2 & Hsplit & _ & ->%subject_matches).
  destruct (Hnone payload user eq_refl); [|done].
  rewrite Hsplit. apply elem_of_app. right. apply list_elem_of_here.
Qed.

(** The gate returns the first stored user whose name is the subject. *)
Lemma get_current_user_accepts credentials w payload l1 u l2 :
  jwt_decode (HTTPAuthorizationCredentials.credentials credentials)
    SECRET_KEY [ALGORITHM] = Decoded payload →
  payload !! "sub" = Some (VStr (User.username u)) →
  users (db w) = l1 ++ u :: l2 →
  Forall (λ u', User.username u' ≠ User.username u) l1 →
  get_current_user jwt_decode credentials w = (Return u, w).
Proof.
  intros Hdec Hsub Hsplit Hl1. rewrite get_current_user_run, Hdec, Hsub, Hsplit.
  rewrite find_one_first; [done| |by apply subject_matches].
  eapply Forall_impl; [exact Hl1|]. simpl.
  intros u' Hne [= Heq]%subject_matches. by apply Hne.
Qed.
End gate_facts.

(** [get_current_user] never changes the world.  Every failure is the
    same 401 "Could not validate credentials".  A user it returns is a
    stored user whose name is the subject claim of the decoded token.  It
    fails whenever the token does not decode to a subject that names a
    stored user, and (user names being unique) returns the stored user
    the subject names. *)
Theorem get_current_user_outcome
    (jwt_decode : string → string → list string → jwt_decoded)
    (credentials : HTTPAuthorizationCredentials.t) (w : World) :
  let token := HTTPAuthorizationCredentials.credentials credentials in
  ∃ r,
    get_current_user jwt_decode credentials w = (r, w) ∧
    (∀ e, r = Raise e → e = HTTPException 401 "Could not validate credentials") ∧
    (∀ u, r = Return u →
       u ∈ users (db w) ∧
       ∃ payload, jwt_decode token SECRET_KEY [ALGORITHM] = Decoded payload ∧
                  payload !! "sub" = Some (VStr (User.username u))) ∧
    ((∀ payload u, jwt_decode token SECRET_KEY [ALGORITHM] = Decoded payload →
                   u ∈ users (db w) → payload !! "sub" ≠ Some (VStr (User.username u))) →
     r = Raise (HTTPException 401 "Could not validate credentials")) ∧
    (NoDup (User.username <$> users (db w)) →
     ∀ payload u, jwt_decode token SECRET_KEY [ALGORITHM] = Decoded payload →
                  u ∈ users (db w) → payload !! "sub" = Some (VStr (User.username u)) →
     r = Return u).
Proof.
  cbv zeta.
  destruct (get_current_user jwt_decode credentials w) as [r w1] eqn:Hrun.
  assert (w1 = w ∧
          (∀ e, r = Raise e → e = credentials_exception) ∧
          (∀ u, r = Return u →
             ∃ l1 l2 payload,
               users (db w) = l1 ++ u :: l2 ∧
               Forall (λ u', User.username u' ≠ User.username u) l1 ∧
               jwt_decode (HTTPAuthorizationCredentials.credentials credentials)
                 SECRET_KEY [ALGORITHM] = Decoded payload ∧
               payload !! "sub" = Some (VStr (User.username u))))
    as (-> & Hfail & Hok).
  { rewrite get_current_user_run in Hrun.
    destruct (jwt_decode _ _ _) as [payload|msg];
      [|injection Hrun as <- <-; split; [done|]; split; [by intros e [= <-]|done]].
    destruct (payload !! "sub") as [username|] eqn:Hsub;
      [|injection Hrun as <- <-; split; [done|]; split; [by intros e [= <-]|done]].
    destruct (Collection.find_one _ _) as [user|] eqn:Hfind;
      [|injection Hrun as <- <-; split; [done|]; split; [by intros e [= <-]|done]].
    injection Hrun as <- <-. split; [done|]. split; [done|].
    intros u [= <-].
    apply find_one_Some in Hfind as (l1 & l2 & Hsplit & Hl1 & ->%subject_matches).
    exists l1, l2, payload. split; [done|]. split; [|done].
    eapply Forall_impl; [exact Hl1|]. simpl.
    intros u' Hne Heq. apply Hne. apply subject_matches. by rewrite Heq. }
  exists r. split; [done|]. split; [exact Hfail|]. split; [|split].
  - intros u (l1 & l2 & payload & Hsplit & _ & Hdec & Hsub)%Hok.
    split; [|by exists payload].
    rewrite Hsplit. apply elem_of_app. right. apply list_elem_of_here.
  - intros Hnone. apply get_current_user_rejects in Hnone.
    rewrite Hrun in Hnone. by injection Hnone as ->.
  - intros Hnd payload u Hdec Hu Hsub.
    apply list_elem_of_split in Hu as (l1 & l2 & Hsplit).
    assert (Hrun' : get_current_user jwt_decode credentials w = (Return u, w));
      [|congruence].
    eapply get_current_user_accepts; [exact Hdec|exact Hsub|exact Hsplit|].
    rewrite Hsplit, fmap_app, fmap_cons in Hnd.
    apply NoDup_app in Hnd as (_ & Hdisj & _).
    apply Forall_forall. intros u' Hu' Heq.
    apply (Hdisj (User.username u')); [by apply list_elem_of_fmap_2|].
    rewrite Heq. apply list_elem_of_here.
Qed.

(** While the JWT library accepts an issued token (the signature
    verifies and the token has not expired) and gives back the subject it
    was issued for, which is the name in the view that came with it: the
    token [register] returns authenticates, in the world after the
    registration, as the user just stored (with the creation time as the
    store keeps it); the token [login] returns authenticates as the stored
    user whose public view came with it. *)
Theorem issued_tokens_authenticate
    (jwt_encode : gmap string value → string → string → string)
    (jwt_decode : string → string → list string → jwt_decoded)
    (get_password_hash : string → result string)
    (verify_password : string → string → result bool)
    (scheme : string) (utcnow : datetime) (w w' : World) (token : Token.t) :
  (∃ payload,
     jwt_decode (Token.access_token token) SECRET_KEY [ALGORITHM] = Decoded payload ∧
     payload !! "sub" = Some (VStr (UserResponse.username (Token.user token)))) →
  let credentials := HTTPAuthorizationCredentials.mk scheme (Token.access_token token) in
  (∀ user_data uuid4 created_at,
     register jwt_encode get_password_hash user_data uuid4 created_at utcnow w
       = (Return token, w') →
     ∃ hashed_password,
       get_password_hash (UserCreate.password user_data) = Return hashed_password ∧
       get_current_user jwt_decode credentials w'
         = (Return (User.mk uuid4 (UserCreate.username user_data)
                      (UserCreate.email user_data) hashed_password
                      (bson_datetime created_at)), w')) ∧
  (∀ user_data,
     login jwt_encode verify_password user_data utcnow w = (Return token, w') →
     ∃ u, get_current_user jwt_decode credentials w' = (Return u, w') ∧
          u ∈ users (db w') ∧
          Token.user token = user_view u).
Proof.
  intros (payload & Hdec & Hpayload). cbv zeta.
  split.
  - intros user_data uuid4 created_at. rewrite register_run. cbv zeta.
    destruct (decide (Exists _ _)) as [?|Hnone]; [discriminate|].
    destruct (get_password_hash _) as [hashed_password|e]; [|discriminate].
    intros [= <- <-]. apply not_Exists_Forall in Hnone; [|apply _].
    exists hashed_password. split; [done|].
    eapply get_current_user_accepts with (l2 := []); [exact Hdec|exact Hpayload|done|].
    eapply Forall_impl; [exact Hnone|]. simpl. intros u Hu Hname. apply Hu. by left.
  - intros user_data. rewrite login_run.
    destruct (Collection.find_one _ _) as [user|] eqn:Hfind; [|discriminate].
    destruct (verify_password _ _) as [[|]|e]; [|discriminate..].
    intros [= <- <-].
    apply find_one_Some in Hfind as (l1 & l2 & Hsplit & Hl1 & Hname%username_matches).
    exists user. split; [|split; [|done]].
    + eapply get_current_user_accepts; [exact Hdec|exact Hpayload|exact Hsplit|].
      eapply Forall_impl; [exact Hl1|]. simpl.
      intros u Hu Heq. apply Hu. apply username_matches. congruence.
    + rewrite Hsplit. apply elem_of_app. right. apply list_elem_of_here.
Qed.

Lemma sample_jwt_roundtrip (claims : gmap string value) (name : string) :
  claims !! "sub" = Some (VStr name) →
  ∃ payload,
    sample_jwt_decode (sample_jwt_encode claims SECRET_KEY ALGORITHM)
      SECRET_KEY [ALGORITHM] = Decoded payload ∧
    payload !! "sub" = Some (VStr name).
Proof.
  intros Hsub. unfold sample_jwt_encode. rewrite Hsub. simpl.
  eexists. split; [reflexivity|]. apply lookup_singleton_eq.
Qed.

(** Carol registers on the sample store at a time that is not a whole
    millisecond; her token authenticates as the user the store holds. *)
Lemma issued_tokens_authenticate_witness :
  let carol := new_user "hash:Pw123!" carol_data "u-carol" 8123 in
  let token := issued_token sample_jwt_encode carol 8500 in
  let w' := add_user sample_world carol in
  register sample_jwt_encode sample_password_hash carol_data "u-carol" 8123 8500
    sample_world = (Return token, w') ∧
  get_current_user sample_jwt_decode (bearer (Token.access_token token)) w'
    = (Return (User.mk "u-carol" "carol" "carol@x.com" "hash:Pw123!" 8000), w').
Proof.
  cbv zeta. split; [vm_compute; reflexivity|].
  edestruct (issued_tokens_authenticate sample_jwt_encode sample_jwt_decode
               sample_password_hash sample_verify_password "Bearer" 8500 sample_world
               (add_user sample_world (new_user "hash:Pw123!" carol_data "u-carol" 8123))
               (issued_token sample_jwt_encode
                  (new_user "hash:Pw123!" carol_data "u-carol" 8123) 8500))
    as [Hregister _].
  - eexists. split; vm_compute; reflexivity.
  - destruct (Hregister carol_data "u-carol" 8123) as (h & Hh & Hrun).
    + vm_compute. reflexivity.
    + vm_compute in Hh. injection Hh as <-. exact Hrun.
Defined.

(** For credentials whose token does not decode to a subject that names
    a stored user, each protected route answers 401 "Could not validate
    credentials" and leaves the world as it was: nothing is read, decoded,
    stored, listed or deleted.  For credentials the gate accepts, a route
    is its endpoint run for the user the gate returned. *)
Theorem protected_routes_need_a_user
    (jwt_decode : string → string → list string → jwt_decoded)
    (pil : PIL.library) (credentials : HTTPAuthorizationCredentials.t)
    (file : UploadFile.t) (caption : string) (is_private : bool)
    (uuid4 : string) (utcnow : datetime) (private : option bool)
    (image_id : string) (w : World) :
  let token := HTTPAuthorizationCredentials.credentials credentials in
  ((∀ payload u, jwt_decode token SECRET_KEY [ALGORITHM] = Decoded payload →
                 u ∈ users (db w) → payload !! "sub" ≠ Some (VStr (User.username u))) →
   POST_images_upload jwt_decode pil credentials file caption is_private uuid4 utcnow w
     = (Raise credentials_exception, w) ∧
   GET_images jwt_decode credentials private w = (Raise credentials_exception, w) ∧
   DELETE_images jwt_decode credentials image_id w = (Raise credentials_exception, w)) ∧
  (∀ u, get_current_user jwt_decode credentials w = (Return u, w) →
   POST_images_upload jwt_decode pil credentials file caption is_private uuid4 utcnow w
     = upload_image pil file caption is_private u uuid4 utcnow w ∧
   GET_images jwt_decode credentials private w = get_images private u w ∧
   DELETE_images jwt_decode credentials image_id w = delete_image image_id u w).
Proof.
  cbv zeta. unfold POST_images_upload, GET_images, DELETE_images,
    Depends_get_current_user.
  split.
  - intros Hrun%get_current_user_rejects. rewrite !bind_run, Hrun. done.
  - intros u Hrun. rewrite !bind_run, Hrun. done.
Qed.

(** A token that is not a JWT, on the sample store. *)
Lemma protected_routes_need_a_user_witness :
  POST_images_upload sample_jwt_decode Stub.pil (bearer "not-a-token") small_png_file
    "" false "img-9" 9000 sample_world = (Raise credentials_exception, sample_world) ∧
  GET_images sample_jwt_decode (bearer "not-a-token") None sample_world
    = (Raise credentials_exception, sample_world) ∧
  DELETE_images sample_jwt_decode (bearer "not-a-token") "img-1" sample_world
    = (Raise credentials_exception, sample_world).
Proof.
  apply (protected_routes_need_a_user sample_jwt_decode Stub.pil (bearer "not-a-token")).
  intros payload u Hdec. discriminate Hdec.
Defined.

(** ** Uploads, listings and deletions together *)

Lemma get_images_run private (current_user : User.t) w :
  get_images private current_user w =
  (Return (ImageResponse.of_item <$>
             take 100 (sort_created_at_desc
                         (filter (listable private (User.id current_user))
                            (images (db w))))), w).
Proof.
  unfold get_images, images_find, Collection.to_list, Collection.find.
  unfold mbind, Handler_bind, mret, Handler_ret. simpl.
  erewrite list_filter_iff; [reflexivity|].
  intros d. apply get_images_query_match.
Qed.

Lemma listable_owned private uid d : listable private uid d → owned_by uid d.
Proof. by intros [? _]. Qed.

Lemma filter_listable_owned private uid (coll : list ImageItem.t) :
  filter (listable private uid) coll =
  filter (listable private uid) (filter (owned_by uid) coll).
Proof.
  rewrite list_filter_filter. apply list_filter_iff.
  intros d. split; [|by intros [? _]]. intros Hd. split; [done|by eapply listable_owned].
Qed.

Lemma length_filter_listable private uid (coll : list ImageItem.t) :
  (length (filter (listable private uid) coll) ≤ length (filter (owned_by uid) coll))%nat.
Proof. rewrite filter_listable_owned. apply length_filter. Qed.

(** A listing of at most 100 matching records shows all of them. *)
Lemma get_images_all private (current_user : User.t) w :
  (length (filter (owned_by (User.id current_user)) (images (db w))) ≤ 100)%nat →
  ∃ docs,
    get_images private current_user w = (Return (ImageResponse.of_item <$> docs), w) ∧
    docs ≡ₚ filter (listable private (User.id current_user)) (images (db w)).
Proof.
  intros Hlen. rewrite get_images_run. eexists. split; [reflexivity|].
  rewrite take_ge.
  - apply merge_sort_Permutation.
  - unfold sort_created_at_desc. rewrite merge_sort_Permutation.
    etrans; [apply length_filter_listable|done].
Qed.

Section upload_outcome.
Variable pil : PIL.library.
Variables (file : UploadFile.t) (caption : string) (is_private : bool).
Variables (current_user : User.t) (uuid4 : string) (utcnow : datetime).

(** A failed upload raised a 400 and kept the store. *)
Lemma upload_image_Raise w e w' :
  upload_image pil file caption is_private current_user uuid4 utcnow w = (Raise e, w') →
  db w' = db w ∧ ∃ detail, e = HTTPException 400 detail.
Proof.
  intros Hrun.
  destruct (decide (UploadFile.content_type file ∈ allowed_types)) as [Hct|Hct].
  2: { rewrite upload_image_rejected_type in Hrun by done.
       injection Hrun as <- <-. split; [done|by eexists]. }
  destruct (Z.le_gt_cases (len (UploadFile.body file)) (10 * 1024 * 1024)) as [Hlen|Hlen].
  2: { rewrite upload_image_rejected_size in Hrun by done.
       injection Hrun as <- <-. split; [done|by eexists]. }
  rewrite upload_image_processed, process_image_eq in Hrun by done.
  destruct (process_image_body pil _ _ _) as [[[base64_data processed_size]|cause] w1]
    eqn:Hbody; [discriminate|].
  injection Hrun as <- <-.
  apply process_image_body_Raise in Hbody as (done & ev & -> & _).
  split; [done|by eexists].
Qed.
End upload_outcome.

(** An upload never touches the users collection.  When it succeeds,
    exactly one record is appended to the images collection, every earlier
    record staying in place: it has the generated id, the caller as owner,
    the file name, caption, visibility flag and content type of the
    request, the base64 text of the encoder's output as payload, the byte
    length of that output as size, and the generated creation time as the
    store keeps it, cut to the millisecond; the answer has the same public
    fields with the creation time in full.  When it fails, the error is a
    400 and the images collection is unchanged. *)
Theorem upload_image_outcome (pil : PIL.library) (file : UploadFile.t)
    (caption : string) (is_private : bool) (current_user : User.t)
    (uuid4 : string) (utcnow : datetime) (w : World) :
  ∃ r w',
    upload_image pil file caption is_private current_user uuid4 utcnow w = (r, w') ∧
    users (db w') = users (db w) ∧
    (∀ response, r = Return response →
       ∃ im format out,
         PIL.save pil im format 85 = Return out ∧
         images (db w') =
           images (db w) ++
           [ImageItem.mk uuid4 (User.id current_user) (UploadFile.filename file)
              caption is_private (b64encode out) (UploadFile.content_type file)
              (len out) (bson_datetime utcnow)] ∧
         response =
           ImageResponse.mk uuid4 (UploadFile.filename file) caption is_private
             (b64encode out) (UploadFile.content_type file) (len out) utcnow) ∧
    (∀ e, r = Raise e →
       images (db w') = images (db w) ∧ ∃ detail, e = HTTPException 400 detail).
Proof.
  destruct (upload_image pil file caption is_private current_user uuid4 utcnow w)
    as [[response|e] w'] eqn:Hrun.
  - apply upload_image_Return in Hrun
      as (_ & _ & im0 & im1 & im2 & out & _ & _ & _ & Hsave & -> & ->).
    eexists _, _. split; [reflexivity|]. split; [done|]. split; [|done].
    intros response [= <-].
    exists im2, (format_name (UploadFile.content_type file)), out.
    split; [exact Hsave|]. split; reflexivity.
  - apply upload_image_Raise in Hrun as (Hdb & detail & ->).
    eexists _, _. split; [reflexivity|]. rewrite Hdb. split; [done|].
    split; [done|]. intros e [= <-]. split; [done|by eexists].
Qed.

Section after_upload.
Variable pil : PIL.library.
Variables (file : UploadFile.t) (caption : string) (is_private : bool).
Variables (current_user : User.t) (uuid4 : string) (utcnow : datetime).

(** The images collection after an upload, whatever its outcome. *)
Lemma upload_image_images w :
  let run := upload_image pil file caption is_private current_user uuid4 utcnow w in
  (∃ e, run.1 = Raise e ∧ images (db run.2) = images (db w)) ∨
  (∃ item, run.1 = Return (ImageResponse.of_item item) ∧
           images (db run.2) = images (db w) ++ [bson item] ∧
           ImageItem.id item = uuid4 ∧
           ImageItem.user_id item = User.id current_user ∧
           ImageItem.is_private item = is_private).
Proof.
  cbv zeta.
  destruct (upload_image pil file caption is_private current_user uuid4 utcnow w)
    as [[response|e] w'] eqn:Hrun.
  - apply upload_image_Return in Hrun
      as (_ & _ & im0 & im1 & im2 & out & _ & _ & _ & _ & -> & ->).
    right. eexists. split; [reflexivity|]. split; [reflexivity|]. by repeat split.
  - apply upload_image_Raise in Hrun as (Hdb & _).
    left. exists e. simpl. by rewrite Hdb.
Qed.
End after_upload.

Lemma filter_visibility_partition uid (coll : list ImageItem.t) :
  filter (listable None uid) coll ≡ₚ
  filter (listable (Some true) uid) coll ++ filter (listable (Some false) uid) coll.
Proof.
  induction coll as [|d rest IH]; [done|].
  rewrite !filter_cons.
  destruct (decide (listable None uid d)) as [[Hown _]|Hnone].
  - destruct (ImageItem.is_private d) eqn:Hflag.
    + rewrite decide_True, decide_False.
      * simpl. by rewrite IH.
      * intros [_ Hp]. specialize (Hp false eq_refl). congruence.
      * split; [done|]. intros p [= <-]. done.
    + rewrite decide_False, decide_True.
      * rewrite <- Permutation_middle. by rewrite IH.
      * split; [done|]. intros p [= <-]. done.
      * intros [_ Hp]. specialize (Hp true eq_refl). congruence.
  - rewrite !decide_False; [done| |].
    + intros [Hown _]. apply Hnone. split; [done|]. intros p [=].
    + intros [Hown _]. apply Hnone. split; [done|]. intros p [=].
Qed.

(** Image ids stay unique: an upload under an id that no stored record
    has keeps them unique, and so does any delete. *)
Theorem image_ids_stay_unique (pil : PIL.library) (file : UploadFile.t)
    (caption : string) (is_private : bool) (current_user : User.t)
    (uuid4 : string) (utcnow : datetime) (image_id : string) (w : World) :
  NoDup (ImageItem.id <$> images (db w)) →
  (uuid4 ∉ ImageItem.id <$> images (db w) →
   NoDup (ImageItem.id <$> images
            (db (upload_image pil file caption is_private current_user uuid4 utcnow w).2))) ∧
  NoDup (ImageItem.id <$> images (db (delete_image image_id current_user w).2)).
Proof.
  intros Hnd. split.
  - intros Hfresh.
    destruct (upload_image_images pil file caption is_private current_user uuid4 utcnow w)
      as [(e & _ & ->)|(item & _ & -> & Hid & _)]; [done|].
    rewrite fmap_app. apply NoDup_app. split; [done|]. split; [|apply NoDup_singleton].
    simpl. intros id Hin ->%list_elem_of_singleton. by rewrite Hid in Hin.
  - destruct (delete_image_cases image_id current_user w)
      as [[_ ->]|(l1 & x & l2 & Hsplit & _ & _ & ->)]; [done|].
    simpl. rewrite Hsplit, !fmap_app, fmap_cons in *.
    apply NoDup_app in Hnd as (Hl1 & Hdisj & Hnd). apply NoDup_cons in Hnd as [_ Hl2].
    apply NoDup_app. split; [done|]. split; [|done].
    intros id Hid Hid2. apply (Hdisj id Hid). by apply list_elem_of_further.
Qed.

Lemma image_ids_stay_unique_witness :
  NoDup (ImageItem.id <$> images
           (db (upload_image Stub.pil small_png_file "pic" true alice "img-9" 9000
                  sample_world).2)) ∧
  NoDup (ImageItem.id <$> images (db (delete_image "img-3" alice sample_world).2)).
Proof.
  destruct (image_ids_stay_unique Stub.pil small_png_file "pic" true alice "img-9" 9000
              "img-3" sample_world) as [Hup Hdel].
  - by apply (bool_decide_unpack _).
  - split; [|exact Hdel]. apply Hup. by apply (bool_decide_unpack _).
Defined.

(** What one user uploads or deletes never changes what a user with
    another id is shown by [get_images], with or without the filter. *)
Theorem other_users_listing_unchanged (pil : PIL.library) (file : UploadFile.t)
    (caption : string) (is_private : bool) (actor viewer : User.t)
    (uuid4 : string) (utcnow : datetime) (image_id : string)
    (private : option bool) (w : World) :
  User.id actor ≠ User.id viewer →
  (get_images private viewer
     (upload_image pil file caption is_private actor uuid4 utcnow w).2).1
    = (get_images private viewer w).1 ∧
  (get_images private viewer (delete_image image_id actor w).2).1
    = (get_images private viewer w).1.
Proof.
  intros Hne. rewrite !get_images_run. simpl.
  assert (Hnot : ∀ d, ImageItem.user_id d = User.id actor →
                      ¬ listable private (User.id viewer) d).
  { intros d Hd [Hown _]. congruence. }
  split.
  - destruct (upload_image_images pil file caption is_private actor uuid4 utcnow w)
      as [(e & _ & ->)|(item & _ & -> & _ & Hown & _)]; [done|].
    rewrite filter_app, filter_cons_False, filter_nil, app_nil_r; [done|].
    by apply Hnot.
  - destruct (delete_image_cases image_id actor w)
      as [[_ ->]|(l1 & x & l2 & Hsplit & _ & [_ Hown] & ->)]; [done|].
    simpl. rewrite Hsplit, !filter_app, filter_cons_False; [done|].
    by apply Hnot.
Qed.

(** Bob's listing is the same before and after alice uploads or deletes. *)
Lemma other_users_listing_unchanged_witness :
  (get_images None bob
     (upload_image Stub.pil small_png_file "pic" true alice "img-9" 9000 sample_world).2).1
    = (get_images None bob sample_world).1 ∧
  (get_images None bob (delete_image "img-1" alice sample_world).2).1
    = (get_images None bob sample_world).1.
Proof. apply other_users_listing_unchanged. discriminate. Defined.

(** After a successful upload by a user who had fewer than 100 records,
    the new record is in that user's listing, unfiltered or filtered by
    the record's own visibility flag, and the listing is one longer than
    before.  The listed view is the upload's answer with the creation time
    as the store keeps it, cut to the millisecond. *)
Theorem uploaded_image_is_listed (pil : PIL.library) (file : UploadFile.t)
    (caption : string) (is_private : bool) (current_user : User.t)
    (uuid4 : string) (utcnow : datetime) (private : option bool)
    (w w' : World) (response : ImageResponse.t) :
  upload_image pil file caption is_private current_user uuid4 utcnow w
    = (Return response, w') →
  (length (filter (owned_by (User.id current_user)) (images (db w))) < 100)%nat →
  (∀ p, private = Some p → p = is_private) →
  ∃ before after,
    get_images private current_user w = (Return before, w) ∧
    get_images private current_user w' = (Return after, w') ∧
    stored_view response ∈ after ∧
    length after = S (length before).
Proof.
  intros Hrun Hlen Hflag.
  pose proof (upload_image_images pil file caption is_private current_user uuid4 utcnow w)
    as Himages. cbv zeta in Himages. rewrite Hrun in Himages. simpl in Himages.
  destruct Himages as [(e & [=] & _)|(item & [= ->] & Himages & _ & Hown & Hpriv)].
  assert (Hitem : listable private (User.id current_user) (bson item)).
  { split; [done|]. intros p ->%Hflag. done. }
  destruct (get_images_all private current_user w) as (docs & Hbefore & Hdocs); [lia|].
  destruct (get_images_all private current_user w') as (docs' & Hafter & Hdocs').
  { rewrite Himages, filter_app, length_app, filter_cons_True by done. simpl. lia. }
  rewrite Himages, filter_app, filter_cons_True, filter_nil in Hdocs' by done.
  eexists _, _. split; [exact Hbefore|]. split; [exact Hafter|]. split.
  - change (stored_view (ImageResponse.of_item item))
      with (ImageResponse.of_item (bson item)).
    apply list_elem_of_fmap_2. rewrite Hdocs'. apply elem_of_app. right.
    apply list_elem_of_here.
  - rewrite !length_fmap, Hdocs', Hdocs, length_app. simpl. lia.
Qed.

(** Alice uploads at a time that is not a whole millisecond. *)
Lemma uploaded_image_is_listed_witness :
  ∃ response w' before after,
    upload_image Stub.pil small_png_file "pic" true alice "img-9" 9123 sample_world
      = (Return response, w') ∧
    get_images (Some true) alice sample_world = (Return before, sample_world) ∧
    get_images (Some true) alice w' = (Return after, w') ∧
    ImageResponse.created_at response = 9123 ∧
    stored_view response ∈ after ∧ length after = S (length before).
Proof.
  eexists _, _.
  edestruct (uploaded_image_is_listed Stub.pil small_png_file "pic" true alice "img-9"
               9123 (Some true) sample_world)
    as (before & after & Hbefore & Hafter & Hin & Hlen).
  - vm_compute. reflexivity.
  - vm_compute. lia.
  - by intros p [= <-].
  - exists before, after. split; [vm_compute; reflexivity|].
    split; [exact Hbefore|]. split; [exact Hafter|]. split; [reflexivity|].
    split; [exact Hin|exact Hlen].
Defined.

(** In a store with unique record ids, once a delete has succeeded no
    listing of any user shows a record with the deleted id. *)
Theorem deleted_image_is_not_listed (image_id : string) (current_user viewer : User.t)
    (private : option bool) (w w' : World) (message : gmap string string) :
  NoDup (ImageItem.id <$> images (db w)) →
  delete_image image_id current_user w = (Return message, w') →
  ∃ listing,
    get_images private viewer w' = (Return listing, w') ∧
    Forall (λ view, ImageResponse.id view ≠ image_id) listing.
Proof.
  intros Hnd Hrun.
  destruct (delete_image_cases image_id current_user w)
    as [[_ Hrun']|(l1 & x & l2 & Hsplit & _ & [Hid _] & Hrun')];
    rewrite Hrun' in Hrun; [discriminate|].
  injection Hrun as _ <-.
  rewrite Hsplit in Hnd.
  pose proof (unique_id_elsewhere image_id l1 x l2 Hnd Hid) as Helse.
  rewrite get_images_run. eexists. split; [reflexivity|]. simpl.
  apply Forall_fmap, Forall_take. apply Forall_forall. intros d Hd.
  unfold sort_created_at_desc in Hd. rewrite merge_sort_Permutation in Hd.
  apply list_elem_of_filter in Hd as [_ Hd].
  rewrite Forall_forall in Helse. by apply Helse.
Qed.

Lemma deleted_image_is_not_listed_witness :
  ∃ w' listing,
    (delete_image "img-3" alice sample_world).2 = w' ∧
    get_images None alice w' = (Return listing, w') ∧
    Forall (λ view, ImageResponse.id view ≠ "img-3") listing.
Proof.
  eexists _.
  edestruct (deleted_image_is_not_listed "img-3" alice alice None sample_world)
    as (listing & Hlist & Hall).
  - by apply (bool_decide_unpack _).
  - vm_compute. reflexivity.
  - exists listing. split; [reflexivity|]. split; [exact Hlist|exact Hall].
Defined.

(** For a user with at most 100 records, the unfiltered listing is the
    listing of the private records together with the listing of the
    public ones, and each filtered listing shows only records with the
    requested flag. *)
Theorem visibility_filter_partitions (current_user : User.t) (w : World) :
  (length (filter (owned_by (User.id current_user)) (images (db w))) ≤ 100)%nat →
  ∃ all private_only public_only,
    get_images None current_user w = (Return all, w) ∧
    get_images (Some true) current_user w = (Return private_only, w) ∧
    get_images (Some false) current_user w = (Return public_only, w) ∧
    all ≡ₚ private_only ++ public_only ∧
    Forall (λ view, ImageResponse.is_private view = true) private_only ∧
    Forall (λ view, ImageResponse.is_private view = false) public_only.
Proof.
  intros Hlen.
  destruct (get_images_all None current_user w Hlen) as (docs & Hall & Hdocs).
  destruct (get_images_all (Some true) current_user w Hlen) as (priv & Hpriv & Hp).
  destruct (get_images_all (Some false) current_user w Hlen) as (pub & Hpub & Hq).
  eexists _, _, _. split; [exact Hall|]. split; [exact Hpriv|]. split; [exact Hpub|].
  split; [|split].
  - rewrite <- fmap_app. apply fmap_Permutation.
    by rewrite Hdocs, Hp, Hq, filter_visibility_partition.
  - apply Forall_fmap, Forall_forall. intros d Hd. rewrite Hp in Hd.
    apply list_elem_of_filter in Hd as [[_ Hflag] _]. by apply Hflag.
  - apply Forall_fmap, Forall_forall. intros d Hd. rewrite Hq in Hd.
    apply list_elem_of_filter in Hd as [[_ Hflag] _]. by apply Hflag.
Qed.

Lemma visibility_filter_partitions_witness :
  ∃ all private_only public_only,
    get_images None alice sample_world = (Return all, sample_world) ∧
    get_images (Some true) alice sample_world = (Return private_only, sample_world) ∧
    get_images (Some false) alice sample_world = (Return public_only, sample_world) ∧
    all ≡ₚ private_only ++ public_only.
Proof.
  destruct (visibility_filter_partitions alice sample_world)
    as (all & priv & pub & H1 & H2 & H3 & H4 & _); [vm_compute; lia|].
  exists all, priv, pub.
  split; [exact H1|]. split; [exact H2|]. split; [exact H3|exact H4].
Defined.

(** Uploading under an id that no stored record has and then deleting
    that id as the same user gives back the store as it was. *)
Theorem upload_then_delete_restores (pil : PIL.library) (file : UploadFile.t)
    (caption : string) (is_private : bool) (current_user : User.t)
    (uuid4 : string) (utcnow : datetime) (w w' : World) (response : ImageResponse.t) :
  uuid4 ∉ ImageItem.id <$> images (db w) →
  upload_image pil file caption is_private current_user uuid4 utcnow w
    = (Return response, w') →
  ∃ w'',
    delete_image (ImageResponse.id response) current_user w' = (deleted, w'') ∧
    db w'' = db w.
Proof.
  intros Hfresh Hrun.
  apply upload_image_Return in Hrun
    as (_ & _ & im0 & im1 & im2 & out & _ & _ & _ & _ & -> & ->).
  simpl.
  set (item := new_image_item file caption is_private current_user uuid4 utcnow out).
  unfold delete_image, images_delete_one, mbind, Handler_bind. simpl.
  fold (delete_query uuid4 current_user).
  rewrite delete_one_first.
  - simpl. eexists. split; [reflexivity|]. simpl. rewrite app_nil_r.
    by destruct w as [[us ims] cs].
  - apply Forall_forall. intros d Hd [Hid _]%delete_query_match.
    apply Hfresh. rewrite <- Hid. by apply list_elem_of_fmap_2.
  - by apply delete_query_match.
Qed.

Lemma upload_then_delete_restores_witness :
  ∃ response w' w'',
    upload_image Stub.pil small_png_file "pic" true alice "img-9" 9000 sample_world
      = (Return response, w') ∧
    delete_image (ImageResponse.id response) alice w' = (deleted, w'') ∧
    db w'' = db sample_world.
Proof.
  eexists _, _.
  edestruct (upload_then_delete_restores Stub.pil small_png_file "pic" true alice
               "img-9" 9000 sample_world) as (w'' & Hdel & Hdb).
  - by apply (bool_decide_unpack _).
  - vm_compute. reflexivity.
  - exists w''. split; [vm_compute; reflexivity|]. split; [exact Hdel|exact Hdb].
Defined.

(** ** The calls of the pipeline *)

Lemma format_name_default (content_type : string) :
  content_type ∉ allowed_types → format_name content_type = "JPEG".
Proof.
  rewrite allowed_types_spec. intros Hct. unfold format_name, format_map.
  rewrite !lookup_insert_ne, lookup_singleton_ne; [done|..];
    intros <-; tauto.
Qed.

Lemma format_name_known (content_type : string) :
  format_name content_type ∈ ["JPEG"; "PNG"; "GIF"; "WEBP"].
Proof.
  destruct (decide (content_type ∈ allowed_types)) as [Hct|Hct].
  - destruct (format_map_allowed _ Hct) as (format & _ & -> & Henc).
    rewrite !elem_of_cons. unfold encoder_for in Henc. tauto.
  - rewrite format_name_default by done. apply list_elem_of_here.
Qed.

Lemma pipeline_calls_disciplined data content_type im0 im1 im2 :
  Forall (pipeline_call data content_type)
    (pipeline_calls data content_type im0 im1 im2).
Proof.
  unfold pipeline_calls, convert_calls, resize_calls.
  rewrite !Forall_app. split; [by repeat constructor|].
  split; [destruct (convert_guard im0); by repeat constructor|].
  split; [destruct (resize_guard im1); by repeat constructor|].
  apply Forall_singleton. simpl.
  split; [done|]. split; [apply format_name_known|apply format_name_default].
Qed.

(** Every run of [process_image], whatever the payload and the content
    type, makes between one and four library calls, the first being the
    decoding of the payload; a conversion is always to "RGB", a resize
    always to the 1920x1080 box with LANCZOS, an encoding always at
    quality 85 in JPEG, PNG, GIF or WEBP, and in JPEG when the content
    type is none of the allowed ones. *)
Theorem process_image_call_discipline (pil : PIL.library)
    (data : list Byte.byte) (content_type : string) (w : World) :
  ∃ r evs,
    process_image pil data content_type w = (r, add_calls w evs) ∧
    head evs = Some (EvOpen data) ∧
    (length evs ≤ 4)%nat ∧
    Forall (pipeline_call data content_type) evs.
Proof.
  rewrite process_image_eq, process_image_body_eq.
  pose proof (pipeline_calls_disciplined data content_type) as Hall.
  assert (Hlen : ∀ im0 im1 im2,
    (length (pipeline_calls data content_type im0 im1 im2) ≤ 4)%nat).
  { intros. unfold pipeline_calls, convert_calls, resize_calls.
    destruct (convert_guard im0), (resize_guard im1); simpl; lia. }
  destruct (PIL.open pil data) as [im0|e0].
  2: { eexists _, _. split; [reflexivity|]. split; [done|]. split; [simpl; lia|].
       by repeat constructor. }
  destruct (after_convert pil im0) as [im1|e1].
  2: { eexists _, _. split; [reflexivity|]. split; [done|].
       specialize (Hall im0 im0 im0). specialize (Hlen im0 im0 im0).
       unfold pipeline_calls in *. rewrite !Forall_app in Hall.
       rewrite !length_app in *. split; [simpl in *; lia|].
       apply Forall_app. tauto. }
  destruct (after_resize pil im1) as [im2|e2].
  2: { eexists _, _. split; [reflexivity|]. split; [done|].
       specialize (Hall im0 im1 im1). specialize (Hlen im0 im1 im1).
       unfold pipeline_calls in *. rewrite !Forall_app in Hall.
       rewrite !length_app in *. split; [simpl in *; lia|].
       rewrite !Forall_app. tauto. }
  destruct (PIL.save pil im2 _ 85) as [out|e3];
    eexists _, _; (split; [reflexivity|]); (split; [done|]); by split.
Qed.

(** ** Registering twice *)

(** Once a registration has succeeded, every later registration under the
    same user name or the same e-mail address is refused, whatever its
    other fields are, and changes nothing. *)
Theorem register_twice_is_refused
    (jwt_encode : gmap string value → string → string → string)
    (get_password_hash : string → result string)
    (first second : UserCreate.t) (uuid4 uuid4' : string)
    (created_at utcnow created_at' utcnow' : datetime)
    (w w' : World) (token : Token.t) :
  register jwt_encode get_password_hash first uuid4 created_at utcnow w
    = (Return token, w') →
  UserCreate.username second = UserCreate.username first ∨
  UserCreate.email second = UserCreate.email first →
  register jwt_encode get_password_hash second uuid4' created_at' utcnow' w'
    = (Raise (HTTPException 400 "Username or email already registered"), w').
Proof.
  rewrite !register_run. cbv zeta.
  destruct (decide (Exists _ (users (db w)))) as [?|_]; [discriminate|].
  destruct (get_password_hash (UserCreate.password first)) as [hashed_password|e];
    [|discriminate].
  intros [= <- <-] Hsame. simpl.
  rewrite decide_True; [done|].
  apply Exists_app. right. apply Exists_cons_hd.
  unfold username_or_email_taken, new_user. simpl. destruct Hsame; [left|right]; done.
Qed.

(** Carol registers; a second carol with another address is refused. *)
Lemma register_twice_is_refused_witness :
  ∃ token w',
    register sample_jwt_encode sample_password_hash carol_data "u-carol" 8000 8001
      sample_world = (Return token, w') ∧
    register sample_jwt_encode sample_password_hash
      (UserCreate.mk "carol" "other@x.com" "secret") "u-carol-2" 8500 8501 w'
      = (Raise (HTTPException 400 "Username or email already registered"), w').
Proof.
  eexists _, _.
  split;
    [|eapply (register_twice_is_refused sample_jwt_encode sample_password_hash
                carol_data _ "u-carol" _ 8000 8001 _ _ sample_world);
      [vm_compute; reflexivity|left; reflexivity]].
  vm_compute. reflexivity.
Defined.
